(** * PostStats: the like / save interaction state of one post for one viewer

    Shallow embedding of [src/components/shared/PostStats.tsx].

    The component receives untyped JSON documents from the backend
    ([Models.Document] carries an index signature of type [any]), and its
    code is written against that: truthiness tests, [Array.isArray],
    optional chaining, strict equality.  The embedding therefore starts
    with a small model of the JavaScript values and operators the
    component uses, then the render function, the effect, and the two
    click handlers. *)

From Stdlib Require Import List String Bool ZArith Lia DecimalString.
Import ListNotations.
Open Scope string_scope.
Open Scope list_scope.
Set Warnings "-register-all".

(** ** JavaScript values and the operators the component uses *)

Module JS.

(** Plain data as delivered by the backend client.  Arrays and objects
    carry the address they are allocated at, because [===] compares them
    by reference.  Numbers are the integral ones; NaN and fractions are
    not represented.  An object is its list of own properties, first
    binding wins. *)
Inductive value : Type :=
| Undefined
| Null
| Boolean (b : bool)
| Number (n : Z)
| Str (s : string)
| Array (loc : nat) (elems : list value)
| Object (loc : nat) (props : list (string * value)).

Inductive error : Type :=
| TypeError (msg : string).

(** Result of evaluating an expression: a value, or an exception that
    propagates out of the enclosing function. *)
Inductive completion (A : Type) : Type :=
| Normal (a : A)
| Throw (e : error).
Arguments Normal {A} a.
Arguments Throw {A} e.

Definition bind {A B} (c : completion A) (k : A -> completion B) : completion B :=
  match c with
  | Normal a => k a
  | Throw e => Throw e
  end.

(** ToBoolean: what [if (v)], [v && ...] and [!!v] test. *)
Definition truthy (v : value) : bool :=
  match v with
  | Undefined | Null => false
  | Boolean b => b
  | Number n => negb (Z.eqb n 0)
  | Str s => negb (String.eqb s "")
  | Array _ _ | Object _ _ => true
  end.

(** [v == null]: the values on which [.] throws and [?.] short-circuits. *)
Definition nullish (v : value) : bool :=
  match v with
  | Undefined | Null => true
  | _ => false
  end.

Definition isArray (v : value) : bool :=
  match v with
  | Array _ _ => true
  | _ => false
  end.

Definition isObject (v : value) : bool :=
  match v with
  | Object _ _ => true
  | _ => false
  end.

(** [a === b]. *)
Definition strictEq (a b : value) : bool :=
  match a, b with
  | Undefined, Undefined => true
  | Null, Null => true
  | Boolean x, Boolean y => Bool.eqb x y
  | Number x, Number y => Z.eqb x y
  | Str x, Str y => String.eqb x y
  | Array l1 _, Array l2 _ => Nat.eqb l1 l2
  | Object l1 _, Object l2 _ => Nat.eqb l1 l2
  | _, _ => false
  end.

(** SameValueZero, the comparison of [Array.prototype.includes]; it
    differs from [===] on NaN only. *)
Definition sameValueZero (a b : value) : bool := strictEq a b.

Fixpoint ownProperty (k : string) (ps : list (string * value)) : value :=
  match ps with
  | [] => Undefined
  | (k', v) :: ps' => if String.eqb k k' then v else ownProperty k ps'
  end.

(** [v.k], for the keys the component reads ([likes], [$id], [post],
    [save]); none of them is a property of the array, string, number or
    boolean prototypes, so on those values the read gives [undefined]. *)
Definition get (v : value) (k : string) : completion value :=
  match v with
  | Undefined => Throw (TypeError "Cannot read properties of undefined")
  | Null => Throw (TypeError "Cannot read properties of null")
  | Object _ ps => Normal (ownProperty k ps)
  | _ => Normal Undefined
  end.

(** [v?.k]: [undefined] when [v] is nullish, [v.k] otherwise; it cannot
    throw on plain data. *)
Definition optGet (v : value) (k : string) : value :=
  match v with
  | Object _ ps => ownProperty k ps
  | _ => Undefined
  end.

(** [xs.map(f)] for a callback that may throw: elements are visited in
    order and the first exception aborts the traversal. *)
Fixpoint map (f : value -> completion value) (xs : list value)
  : completion (list value) :=
  match xs with
  | [] => Normal []
  | x :: xs' =>
      bind (f x) (fun y =>
      bind (map f xs') (fun ys =>
      Normal (y :: ys)))
  end.

(** [xs.find(p)]: the first element on which the callback is truthy,
    [undefined] when there is none. *)
Fixpoint find (p : value -> completion bool) (xs : list value)
  : completion value :=
  match xs with
  | [] => Normal Undefined
  | x :: xs' =>
      bind (p x) (fun b => if b then Normal x else find p xs')
  end.

(** [xs.includes(v)]. *)
Definition includes (xs : list value) (v : value) : bool :=
  existsb (fun x => sameValueZero x v) xs.

(** [xs.filter(p)] for a callback that cannot throw. *)
Definition filter (p : value -> bool) (xs : list value) : list value :=
  List.filter p xs.

(** [xs.push(v)], as a new list. *)
Definition push (xs : list value) (v : value) : list value := xs ++ [v].

End JS.

Import JS.

Declare Scope js_scope.
Delimit Scope js_scope with js.
Notation "x <- c ;; k" := (bind c (fun x => k))
  (at level 61, c at next level, right associativity) : js_scope.
Open Scope js_scope.

(** ** The component *)

(** [PostStatsProps]. *)
Record Props : Type := {
  post : value;
  userId : string
}.

(** The two [useState] cells. *)
Record State : Type := {
  likes : list value;
  isSaved : bool
}.

(** What a handler does to the outside: the three mutations obtained from
    the query layer, the console, and the DOM event. *)
Inductive Effect : Type :=
| StopPropagation
| LikePost (postId : value) (likesArray : list value)
| SavePost (postId : value) (viewerId : string)
| DeleteSavedPost (savedRecordId : value)
| ConsoleWarn (msg : string).

(** What the component returns. *)
Inductive View : Type :=
| Loading
| Stats (liked : bool) (likeCount : nat) (saved : bool).

(** [likesList], lines 14-16. *)
Definition likesList (post : value) : completion (list value) :=
  l <- get post "likes" ;;
  if truthy l && isArray l then
    match l with
    | Array _ users => JS.map (fun user => get user "$id") users
    | _ => Normal []
    end
  else Normal [].

(** The callback of [find], line 33:
    [record.post?.$id === post?.$id]. *)
Definition refersTo (post record : value) : completion bool :=
  p <- get record "post" ;;
  Normal (strictEq (optGet p "$id") (optGet post "$id")).

(** [savedPostRecord], lines 32-34:
    [currentUser?.save?.find(...)].  A [save] that is neither nullish nor
    an array has no callable [find]. *)
Definition savedPostRecord (currentUser post : value) : completion value :=
  if nullish currentUser then Normal Undefined else
  save <- get currentUser "save" ;;
  if nullish save then Normal Undefined else
  match save with
  | Array _ records => JS.find (refersTo post) records
  | _ => Throw (TypeError "currentUser.save.find is not a function")
  end.

(** [checkIsLiked], lines 41-43. *)
Definition checkIsLiked (likesArray : list value) (userId : string) : bool :=
  includes likesArray (Str userId).

(** *** Handlers

    A handler runs against the state cells and the outside world; the
    setters replace a cell, the mutations and the console append to the
    trace of effects. *)
Definition Handler (A : Type) : Type :=
  State * list Effect -> completion (A * (State * list Effect)).

Definition ret {A} (a : A) : Handler A := fun w => Normal (a, w).

Definition seq {A B} (h : Handler A) (k : A -> Handler B) : Handler B :=
  fun w => r <- h w ;; k (fst r) (snd r).

Definition lift {A} (c : completion A) : Handler A :=
  fun w => a <- c ;; Normal (a, w).

Definition emit (e : Effect) : Handler unit :=
  fun w => Normal (tt, (fst w, snd w ++ [e])).

Definition setLikes (newLikes : list value) : Handler unit :=
  fun w => Normal (tt, ({| likes := newLikes; isSaved := isSaved (fst w) |}, snd w)).

Definition setIsSaved (b : bool) : Handler unit :=
  fun w => Normal (tt, ({| likes := likes (fst w); isSaved := b |}, snd w)).

Definition stopPropagation : Handler unit := emit StopPropagation.
Definition likePost (postId : value) (likesArray : list value) : Handler unit :=
  emit (LikePost postId likesArray).
Definition savePost (postId : value) (viewerId : string) : Handler unit :=
  emit (SavePost postId viewerId).
Definition deleteSavedPost (savedRecordId : value) : Handler unit :=
  emit (DeleteSavedPost savedRecordId).
Definition warn (msg : string) : Handler unit := emit (ConsoleWarn msg).

Declare Scope handler_scope.
Delimit Scope handler_scope with handler.
Notation "x <~ h ;; k" := (seq h (fun x => k))
  (at level 61, h at next level, right associativity) : handler_scope.
Notation "h ;; k" := (seq h (fun _ => k))
  (at level 61, right associativity) : handler_scope.

(** Run a handler from a state with an empty trace. *)
Definition run (h : Handler unit) (st : State) : completion (State * list Effect) :=
  r <- h (st, []) ;; Normal (snd r).

(** [handleLikePost], lines 45-66.  [likes] is the cell's value in the
    render the handler was created in. *)
Definition handleLikePost (props : Props) (likes : list value) : Handler unit :=
  (stopPropagation ;;
   let newLikes := likes in
   let hasLiked := includes newLikes (Str (userId props)) in
   let newLikes :=
     if hasLiked
     then JS.filter (fun id => negb (strictEq id (Str (userId props)))) newLikes
     else push newLikes (Str (userId props)) in
   setLikes newLikes ;;
   if truthy (optGet (post props) "$id") then
     postId <~ lift (get (post props) "$id") ;;
     likePost postId newLikes
   else
     warn "Post ID is missing for like action.")%handler.

(** [handleSavePost], lines 68-88.  [savedPostRecord] is the value found
    in the render the handler was created in. *)
Definition handleSavePost (props : Props) (savedPostRecord : value) : Handler unit :=
  (stopPropagation ;;
   if truthy savedPostRecord then
     setIsSaved false ;;
     recordId <~ lift (get savedPostRecord "$id") ;;
     if truthy recordId then
       recordId <~ lift (get savedPostRecord "$id") ;;
       deleteSavedPost recordId
     else
       warn "Saved post record ID is missing for delete action."
   else
     if truthy (optGet (post props) "$id") && truthy (Str (userId props)) then
       postId <~ lift (get (post props) "$id") ;;
       savePost postId (userId props) ;;
       setIsSaved true
     else
       warn "Post ID or User ID is missing for save action.")%handler.

(** *** Render, effect and events *)

(** What one call of the component function leaves behind: the state
    cells as seen by that render, the record its handlers close over, and
    the returned view. *)
Record Rendered : Type := {
  r_state : State;
  r_savedPostRecord : value;
  r_view : View
}.

(** The component function, lines 10-128.  [cells] is [None] on the
    first render, where [useState] takes its initial values; on later
    renders the initial values are computed and ignored. *)
Definition PostStats (props : Props) (currentUser : value) (cells : option State)
  : completion Rendered :=
  likesList <- likesList (post props) ;;
  let st := match cells with
            | None => {| likes := likesList; isSaved := false |}
            | Some st => st
            end in
  savedPostRecord <- savedPostRecord currentUser (post props) ;;
  Normal {| r_state := st;
            r_savedPostRecord := savedPostRecord;
            r_view := if negb (truthy (post props)) then Loading
                      else Stats (checkIsLiked (likes st) (userId props))
                                 (List.length (likes st))
                                 (isSaved st) |}.

(** The effect, lines 36-39: [setIsSaved(!!savedPostRecord)]. *)
Definition deriveIsSaved (savedPostRecord : value) (st : State) : State :=
  {| likes := likes st; isSaved := truthy savedPostRecord |}.

(** Mount: first render, then the effect. *)
Definition mount (props : Props) (currentUser : value) : completion State :=
  r <- PostStats props currentUser None ;;
  Normal (deriveIsSaved (r_savedPostRecord r) (r_state r)).

(** A derivation pass on a mounted component: re-render with the new
    viewer snapshot, then the effect. *)
Definition derive (props : Props) (currentUser : value) (st : State) : completion State :=
  r <- PostStats props currentUser (Some st) ;;
  Normal (deriveIsSaved (r_savedPostRecord r) (r_state r)).

(** A click on the like icon of the current render. *)
Definition clickLike (props : Props) (currentUser : value) (st : State)
  : completion (State * list Effect) :=
  r <- PostStats props currentUser (Some st) ;;
  run (handleLikePost props (likes (r_state r))) (r_state r).

(** A click on the save icon of the current render. *)
Definition clickSave (props : Props) (currentUser : value) (st : State)
  : completion (State * list Effect) :=
  r <- PostStats props currentUser (Some st) ;;
  run (handleSavePost props (r_savedPostRecord r)) (r_state r).

(** The states a mounted component goes through: mount, then clicks on
    either icon and derivation passes on new viewer snapshots, each one
    completed without an exception. *)
Inductive reachable (props : Props) : value -> State -> Prop :=
| reach_mount currentUser st :
    mount props currentUser = Normal st ->
    reachable props currentUser st
| reach_like currentUser st st' es :
    reachable props currentUser st ->
    clickLike props currentUser st = Normal (st', es) ->
    reachable props currentUser st'
| reach_save currentUser st st' es :
    reachable props currentUser st ->
    clickSave props currentUser st = Normal (st', es) ->
    reachable props currentUser st'
| reach_derive currentUser currentUser' st st' :
    reachable props currentUser st ->
    derive props currentUser' st = Normal st' ->
    reachable props currentUser' st'.

(** ** The details page that hosts the component

    [PostDetails] (the page of one post) renders [PostStats] with the
    post it loaded and the signed-in viewer's identifier, next to the
    post's own fields and the relative time computed by [timeAgo] of
    [lib/utils].  The keys it reads ([creator], [name], [imageUrl],
    [location], [caption], [tags], [$createdAt], [$id]) are, like those
    of the component, no properties of the array, string, number or
    boolean prototypes. *)

(** [a || b] and [a && b]: both return one of their operands. *)
Definition orElse (a b : value) : value := if truthy a then a else b.
Definition andAlso (a b : value) : value := if truthy a then b else a.

(** Number-to-string conversion of an integral number, in the range
    where JavaScript prints plain decimal digits. *)
Definition numberToString (n : Z) : string :=
  DecimalString.NilZero.string_of_int (Z.to_int n).

(** ToString on plain data, as a template literal applies it: an array
    joins its elements with commas, printing nullish ones as empty, and
    a plain object prints as [[object Object]]. *)
Fixpoint toString (v : value) : string :=
  match v with
  | Undefined => "undefined"
  | Null => "null"
  | Boolean b => if b then "true" else "false"
  | Number n => numberToString n
  | Str s => s
  | Array _ elems =>
      (fix join (xs : list value) : string :=
         match xs with
         | [] => ""
         | x :: rest =>
             let shown := if nullish x then "" else toString x in
             match rest with
             | [] => shown
             | _ :: _ => (shown ++ "," ++ join rest)%string
             end
         end) elems
  | Object _ _ => "[object Object]"
  end.

(** *** [timeAgo], lib/utils

    Time values are integral milliseconds, [None] standing for the NaN
    of an invalid date; [now] is the clock reading of [new Date()] and
    [past] the time value of [new Date(dateString)].  Differences of
    time values stay far below 2^53, where the floating-point quotients
    floor to the integer quotients used here. *)
Definition intervals : list (string * Z) :=
  [("year", 31536000); ("month", 2592000); ("week", 604800);
   ("day", 86400); ("hour", 3600); ("minute", 60)]%Z.

(** The loop over [Object.entries(intervals)]: the first unit whose
    [count] reaches 1.  Every comparison with NaN is false. *)
Fixpoint firstInterval (secondsAgo : option Z) (entries : list (string * Z))
  : option (Z * string) :=
  match entries with
  | [] => None
  | (unit, secondsInUnit) :: rest =>
      match secondsAgo with
      | Some s =>
          let count := (s / secondsInUnit)%Z in
          if (1 <=? count)%Z then Some (count, unit)
          else firstInterval secondsAgo rest
      | None => firstInterval secondsAgo rest
      end
  end.

Definition timeAgo (now : Z) (past : option Z) : string :=
  let secondsAgo := option_map (fun p => ((now - p) / 1000)%Z) past in
  match firstInterval secondsAgo intervals with
  | Some (count, unit) =>
      (numberToString count ++ " " ++ unit
         ++ (if (1 <? count)%Z then "s" else "") ++ " ago")%string
  | None => "just now"
  end.

(** *** [PostDetails] *)

(** [post?.creator.k]: the optional link guards [post] only, the read
    of [k] on a missing creator throws. *)
Definition creatorField (post : value) (k : string) : completion value :=
  if nullish post then Normal Undefined else
  creator <- get post "creator" ;;
  get creator k.

(** [post?.tags.map((tag) => <li key={tag}>#{tag}</li>)], lines 113-117:
    nothing for a missing post, one item per tag otherwise. *)
Definition tagItems (post : value) : completion (option (list value)) :=
  if nullish post then Normal None else
  tags <- get post "tags" ;;
  match tags with
  | Undefined => Throw (TypeError "Cannot read properties of undefined")
  | Null => Throw (TypeError "Cannot read properties of null")
  | Array _ items => Normal (Some items)
  | _ => Throw (TypeError "post.tags.map is not a function")
  end.

(** [user.id !== post?.creator.$id && 'hidden'], lines 83 and 96. *)
Definition hiddenUnlessOwner (viewerId : string) (post : value)
  : completion value :=
  creatorId <- creatorField post "$id" ;;
  Normal (andAlso (Boolean (negb (strictEq (Str viewerId) creatorId)))
                  (Str "hidden")).

(** The card of a loaded post, attribute by attribute in source order. *)
Record Card : Type := {
  card_image : value;
  card_profileLink : string;
  card_creatorImage : value;
  card_creatorName : value;
  card_createdAgo : string;
  card_location : value;
  card_updateLink : string;
  card_editClass : string;
  card_deleteClass : string;
  card_caption : value;
  card_tags : option (list value);
  card_stats : Props
}.

Inductive DetailsView : Type :=
| DetailsLoader
| DetailsCard (card : Card).

(** The component function of the page, lines 15-141 of the page's
    file.  [post] and [isPending] are the result of the post query,
    [viewerId] is [user.id] of the authentication context, [now] and
    [parseDate] are the clock and the date parser behind [timeAgo]. *)
Definition PostDetails (now : Z) (parseDate : value -> option Z)
           (viewerId : string) (post : value) (isPending : bool)
  : completion DetailsView :=
  if isPending then Normal DetailsLoader else
  let image := optGet post "imageUrl" in
  profileId <- creatorField post "$id" ;;
  let creatorImage :=
    orElse (optGet (optGet post "creator") "imageUrl")
           (Str "/assets/icons/profile-placeholder.svg") in
  creatorName <- creatorField post "name" ;;
  let createdAgo := timeAgo now (parseDate (optGet post "$createdAt")) in
  let location := optGet post "location" in
  let updateLink := ("/update-post/" ++ toString (optGet post "$id"))%string in
  editHidden <- hiddenUnlessOwner viewerId post ;;
  deleteHidden <- hiddenUnlessOwner viewerId post ;;
  let caption := optGet post "caption" in
  tags <- tagItems post ;;
  Normal (DetailsCard
    {| card_image := image;
       card_profileLink := ("/profile/" ++ toString profileId)%string;
       card_creatorImage := creatorImage;
       card_creatorName := creatorName;
       card_createdAgo := createdAgo;
       card_location := location;
       card_updateLink := updateLink;
       card_editClass := toString editHidden;
       card_deleteClass :=
         ("ghost_details-delete_btn " ++ toString deleteHidden)%string;
       card_caption := caption;
       card_tags := tags;
       card_stats := {| post := post; userId := viewerId |} |}).

(** The page with its child: the page's own render, then the first
    render of the [PostStats] element it returned.  An exception of
    either leaves the page. *)
Definition PostDetailsPage (now : Z) (parseDate : value -> option Z)
           (viewerId : string) (post : value) (isPending : bool)
           (currentUser : value)
  : completion (DetailsView * option Rendered) :=
  view <- PostDetails now parseDate viewerId post isPending ;;
  match view with
  | DetailsLoader => Normal (view, None)
  | DetailsCard card =>
      stats <- PostStats (card_stats card) currentUser None ;;
      Normal (view, Some stats)
  end.

(** *** What React accepts of the page

    The values the page places between tags are children of host
    elements: the creator's name (line 73), the relative time and the
    location (line 76), the caption (line 111) and, for every tag, the
    text [#] and the tag (line 115).  React renders strings and numbers,
    renders nothing for booleans, [null] and [undefined], descends into
    arrays, and rejects a plain object ("Objects are not valid as a
    React child") while it works through the tree, which unmounts the
    page like an exception of a component function. *)
Fixpoint validChild (v : value) : bool :=
  match v with
  | Object _ _ => false
  | Array _ elems => forallb validChild elems
  | _ => true
  end.

(** The children of a card's host elements, in tree order; all of them
    come before the [PostStats] element of line 122. *)
Definition cardChildren (card : Card) : list value :=
  [card_creatorName card; Str (card_createdAgo card);
   card_location card; card_caption card]
  ++ match card_tags card with
     | Some items => flat_map (fun tag => [Str "#"; tag]) items
     | None => []
     end.

(** How rendering the page ends. *)
Inductive PageOutcome : Type :=
| Shown (view : DetailsView) (stats : option Rendered)
| Thrown (e : error)
| InvalidChild (child : value).

(** The page as React renders it: the page's component function, then
    the tree it returned in depth-first order, host children first and
    the embedded [PostStats] last. *)
Definition renderPage (now : Z) (parseDate : value -> option Z)
           (viewerId : string) (post : value) (isPending : bool)
           (currentUser : value) : PageOutcome :=
  match PostDetails now parseDate viewerId post isPending with
  | Throw e => Thrown e
  | Normal DetailsLoader => Shown DetailsLoader None
  | Normal (DetailsCard card) =>
      match List.find (fun child => negb (validChild child)) (cardChildren card) with
      | Some child => InvalidChild child
      | None =>
          match PostStats (card_stats card) currentUser None with
          | Throw e => Thrown e
          | Normal stats => Shown (DetailsCard card) (Some stats)
          end
      end
  end.

(** ** Reading aids for the statements *)

(** The value of [newLikes] at line 58, when the handler runs for viewer
    [userId] on the sequence [likes]. *)
Definition newLikesOf (likes : list value) (userId : string) : list value :=
  if includes likes (Str userId)
  then JS.filter (fun id => negb (strictEq id (Str userId))) likes
  else push likes (Str userId).

(** Number of positions of [likes] holding the identifier [v]. *)
Definition occurrences (v : string) (likes : list value) : nat :=
  List.length (List.filter (fun id => strictEq id (Str v)) likes).

(** The mutations that reach the backend. *)
Definition isRemoteCall (e : Effect) : bool :=
  match e with
  | LikePost _ _ | SavePost _ _ | DeleteSavedPost _ => true
  | StopPropagation | ConsoleWarn _ => false
  end.

Definition remoteCalls (es : list Effect) : list Effect :=
  List.filter isRemoteCall es.

Definition isDiagnostic (e : Effect) : bool :=
  match e with
  | ConsoleWarn _ => true
  | _ => false
  end.

Definition diagnostics (es : list Effect) : list Effect :=
  List.filter isDiagnostic es.

(** The viewer snapshot as the query layer types it: no viewer yet, no
    [save] collection, or a collection of documents. *)
Definition viewerSnapshot (currentUser : value) : bool :=
  match optGet currentUser "save" with
  | Undefined | Null => true
  | Array _ records => forallb isObject records
  | _ => false
  end.

(** The records of the viewer's [save] collection. *)
Definition savedRecords (currentUser : value) : list value :=
  match optGet currentUser "save" with
  | Array _ records => records
  | _ => []
  end.

(** *** The toggle as the specification words it *)

(** [L'] is [L] with one occurrence of [v] removed. *)
Definition oneOccurrenceRemoved (v : string) (L L' : list value) : Prop :=
  exists L1 L2, L = L1 ++ Str v :: L2 /\ L' = L1 ++ L2.

(** Specified result of toggle-like: one occurrence removed when [v] is
    present, [v] appended at the end otherwise. *)
Definition specifiedToggle (v : string) (L L' : list value) : Prop :=
  if checkIsLiked L v then oneOccurrenceRemoved v L L' else L' = L ++ [Str v].

(** *** Further reading aids *)

(** A remote call names the documents it is about: the identifiers it
    carries are truthy. *)
Definition wellAddressed (e : Effect) : bool :=
  match e with
  | LikePost postId _ => truthy postId
  | SavePost postId viewerId => truthy postId && truthy (Str viewerId)
  | DeleteSavedPost savedRecordId => truthy savedRecordId
  | StopPropagation | ConsoleWarn _ => true
  end.

(** [record] refers to the item [post], as line 33 compares them. *)
Definition matches (post record : value) : bool :=
  strictEq (optGet (optGet record "post") "$id") (optGet post "$id").

(** The text [timeAgo] builds for [count] units. *)
Definition agoText (count : Z) (unit : string) : string :=
  (numberToString count ++ " " ++ unit
   ++ (if (1 <? count)%Z then "s" else "") ++ " ago")%string.

(** ** Lemmas on the value model *)

Section ValueLemmas.

Lemma strictEq_Str (x : value) (v : string) :
  strictEq x (Str v) = true <-> x = Str v.
Proof.
  destruct x; simpl; split; try discriminate; intros H.
  - apply String.eqb_eq in H. now subst.
  - inversion H; subst. apply String.eqb_refl.
Qed.

Lemma strictEq_Str_false (x : value) (v : string) :
  strictEq x (Str v) = false <-> x <> Str v.
Proof.
  rewrite <- strictEq_Str. destruct (strictEq x (Str v)); split; congruence.
Qed.

Lemma get_of_truthy_optGet (v : value) (k : string) :
  truthy (optGet v k) = true -> get v k = Normal (optGet v k).
Proof. destruct v; simpl; intros H; try discriminate; reflexivity. Qed.

Lemma get_of_truthy (v : value) (k : string) :
  truthy v = true -> get v k = Normal (optGet v k).
Proof. destruct v; simpl; intros H; try discriminate; reflexivity. Qed.

Lemma get_Object (v : value) (k : string) :
  isObject v = true -> get v k = Normal (optGet v k).
Proof. destruct v; simpl; intros H; try discriminate; reflexivity. Qed.

Lemma includes_In (L : list value) (v : string) :
  includes L (Str v) = true <-> In (Str v) L.
Proof.
  unfold includes, sameValueZero. rewrite existsb_exists. split.
  - intros [x [Hx Heq]]. apply strictEq_Str in Heq. now subst.
  - intros H. exists (Str v). split; [assumption | now apply strictEq_Str].
Qed.

Lemma includes_false (L : list value) (v : string) :
  includes L (Str v) = false <-> ~ In (Str v) L.
Proof.
  rewrite <- includes_In. destruct (includes L (Str v)); split; congruence.
Qed.

Lemma includes_app (L1 L2 : list value) (x : value) :
  includes (L1 ++ L2) x = includes L1 x || includes L2 x.
Proof. unfold includes. apply existsb_app. Qed.

Lemma In_filter_others (L : list value) (v : string) (x : value) :
  In x (JS.filter (fun id => negb (strictEq id (Str v))) L)
  <-> In x L /\ x <> Str v.
Proof.
  unfold JS.filter. rewrite filter_In, negb_true_iff, strictEq_Str_false.
  reflexivity.
Qed.

Lemma includes_filter_others (L : list value) (v w : string) :
  w <> v ->
  includes (JS.filter (fun id => negb (strictEq id (Str v))) L) (Str w)
  = includes L (Str w).
Proof.
  intros Hwv. apply eq_true_iff_eq.
  rewrite !includes_In, In_filter_others. split.
  - tauto.
  - intros H. split; [assumption | congruence].
Qed.

Lemma filter_others_absent (L : list value) (v : string) :
  ~ In (Str v) L ->
  JS.filter (fun id => negb (strictEq id (Str v))) L = L.
Proof.
  unfold JS.filter. induction L as [| x L IH]; simpl; intros Hn.
  - reflexivity.
  - destruct (strictEq x (Str v)) eqn:E.
    + apply strictEq_Str in E. subst. tauto.
    + simpl. f_equal. apply IH. tauto.
Qed.

Lemma occurrences_zero (L : list value) (v : string) :
  occurrences v L = 0 -> ~ In (Str v) L.
Proof.
  unfold occurrences. induction L as [| x L IH]; simpl; intros H.
  - tauto.
  - destruct (strictEq x (Str v)) eqn:E; simpl in H.
    + discriminate.
    + apply strictEq_Str_false in E. intros [Hx | Hin].
      * congruence.
      * now apply IH.
Qed.

Lemma filter_others_single (L : list value) (v : string) :
  In (Str v) L -> occurrences v L <= 1 ->
  oneOccurrenceRemoved v L
    (JS.filter (fun id => negb (strictEq id (Str v))) L).
Proof.
  induction L as [| x L IH]; intros Hin Hocc.
  - destruct Hin.
  - unfold occurrences in Hocc. simpl in Hocc. unfold JS.filter. simpl.
    destruct (strictEq x (Str v)) eqn:E; simpl in *.
    + apply strictEq_Str in E. subst x.
      exists [], L. split; [reflexivity |].
      simpl. apply (filter_others_absent L v).
      apply occurrences_zero. unfold occurrences. lia.
    + apply strictEq_Str_false in E.
      destruct Hin as [Hx | Hin]; [congruence |].
      destruct (IH Hin Hocc) as [L1 [L2 [HL HL']]].
      exists (x :: L1), L2. split.
      * simpl. now rewrite <- HL.
      * simpl. unfold JS.filter in HL'. now rewrite HL'.
Qed.

Lemma NoDup_snoc (L : list value) (x : value) :
  NoDup L -> ~ In x L -> NoDup (L ++ [x]).
Proof.
  induction 1 as [| y L Hy HL IH]; simpl; intros Hx.
  - constructor; [tauto | constructor].
  - constructor.
    + rewrite in_app_iff. simpl. intros [H | [H | []]]; [tauto |].
      subst. tauto.
    + apply IH. tauto.
Qed.

End ValueLemmas.

(** ** Lemmas on the handlers *)

Section HandlerLemmas.

Variable props : Props.

(** What one run of [handleLikePost] leaves behind, on every input. *)
Lemma run_handleLikePost (st : State) :
  run (handleLikePost props (likes st)) st =
  Normal ({| likes := newLikesOf (likes st) (userId props);
             isSaved := isSaved st |},
          [StopPropagation;
           if truthy (optGet (post props) "$id")
           then LikePost (optGet (post props) "$id")
                         (newLikesOf (likes st) (userId props))
           else ConsoleWarn "Post ID is missing for like action."]).
Proof.
  unfold run, handleLikePost, seq, stopPropagation, emit, setLikes,
    likePost, warn, lift, newLikesOf. simpl.
  destruct (truthy (optGet (post props) "$id")) eqn:E; simpl.
  - rewrite (get_of_truthy_optGet _ _ E). reflexivity.
  - reflexivity.
Qed.

(** What one run of [handleSavePost] leaves behind, on every input. *)
Lemma run_handleSavePost (savedPostRecord : value) (st : State) :
  run (handleSavePost props savedPostRecord) st =
  Normal
    (if truthy savedPostRecord then
       ({| likes := likes st; isSaved := false |},
        [StopPropagation;
         if truthy (optGet savedPostRecord "$id")
         then DeleteSavedPost (optGet savedPostRecord "$id")
         else ConsoleWarn "Saved post record ID is missing for delete action."])
     else if truthy (optGet (post props) "$id") && truthy (Str (userId props)) then
       ({| likes := likes st; isSaved := true |},
        [StopPropagation; SavePost (optGet (post props) "$id") (userId props)])
     else
       (st, [StopPropagation;
             ConsoleWarn "Post ID or User ID is missing for save action."])).
Proof.
  unfold run, handleSavePost, seq, stopPropagation, emit, setIsSaved,
    deleteSavedPost, savePost, warn, lift. simpl.
  destruct (truthy savedPostRecord) eqn:Er; simpl.
  - rewrite (get_of_truthy _ "$id" Er). simpl.
    destruct (truthy (optGet savedPostRecord "$id")); reflexivity.
  - destruct (truthy (optGet (post props) "$id")) eqn:Ep; simpl.
    + rewrite (get_of_truthy_optGet _ _ Ep). simpl.
      destruct (negb (userId props =? "")%string); simpl;
        [reflexivity | now destruct st].
    + now destruct st.
Qed.

(** Neither handler can throw. *)
Lemma handlers_total (savedPostRecord : value) (st : State) :
  (exists r, run (handleLikePost props (likes st)) st = Normal r) /\
  (exists r, run (handleSavePost props savedPostRecord) st = Normal r).
Proof.
  split; eexists; [apply run_handleLikePost | apply run_handleSavePost].
Qed.

End HandlerLemmas.

(** ** Lemmas on renders and events *)

Section EventLemmas.

Variables (props : Props) (currentUser : value).

Lemma PostStats_keeps_cells (st : State) (r : Rendered) :
  PostStats props currentUser (Some st) = Normal r -> r_state r = st.
Proof.
  unfold PostStats.
  destruct (likesList (post props)); simpl; [| discriminate].
  destruct (savedPostRecord currentUser (post props)); simpl; [| discriminate].
  intros H. inversion H. reflexivity.
Qed.

Lemma clickLike_runs_handler (st : State) (res : State * list Effect) :
  clickLike props currentUser st = Normal res ->
  run (handleLikePost props (likes st)) st = Normal res.
Proof.
  unfold clickLike.
  destruct (PostStats props currentUser (Some st)) as [r | e] eqn:Hr; simpl;
    [| discriminate].
  now rewrite (PostStats_keeps_cells st r Hr).
Qed.

Lemma clickSave_keeps_likes (st st' : State) (es : list Effect) :
  clickSave props currentUser st = Normal (st', es) -> likes st' = likes st.
Proof.
  unfold clickSave.
  destruct (PostStats props currentUser (Some st)) as [r | e] eqn:Hr; simpl;
    [| discriminate].
  rewrite (PostStats_keeps_cells st r Hr), run_handleSavePost.
  destruct (truthy (r_savedPostRecord r));
    [| destruct (truthy (optGet (post props) "$id") && truthy (Str (userId props)))];
    intros H; inversion H; reflexivity.
Qed.

Lemma derive_keeps_likes (st st' : State) :
  derive props currentUser st = Normal st' -> likes st' = likes st.
Proof.
  unfold derive.
  destruct (PostStats props currentUser (Some st)) as [r | e] eqn:Hr; simpl;
    [| discriminate].
  rewrite (PostStats_keeps_cells st r Hr).
  intros H. inversion H. reflexivity.
Qed.

End EventLemmas.

(** ** Toggle-like *)

(** C1, as the code has it.  When the item identifier is present
    (the guard [post?.$id] of line 61 holds), toggle-like replaces the
    local sequence [L] by [L] without any occurrence of the viewer [v]
    if [v] is in [L], and by [L] with [v] appended at the end otherwise,
    leaving [isSaved] alone; it issues exactly one remote like-update,
    carrying the item identifier and that entire new sequence.  Whenever
    [v] occurs at most once in [L] this is the specified toggle: one
    occurrence removed, or [v] appended. *)
Theorem toggle_like_replaces_and_sends (props : Props) (st : State) :
  truthy (optGet (post props) "$id") = true ->
  exists L' es,
    run (handleLikePost props (likes st)) st =
      Normal ({| likes := L'; isSaved := isSaved st |}, es)
    /\ remoteCalls es = [LikePost (optGet (post props) "$id") L']
    /\ diagnostics es = []
    /\ (if checkIsLiked (likes st) (userId props)
        then L' = List.filter (fun id => negb (strictEq id (Str (userId props))))
                              (likes st)
             /\ ~ In (Str (userId props)) L'
        else L' = likes st ++ [Str (userId props)])
    /\ (occurrences (userId props) (likes st) <= 1 ->
        specifiedToggle (userId props) (likes st) L').
Proof.
  intros Hid. exists (newLikesOf (likes st) (userId props)). eexists.
  split; [apply run_handleLikePost |]. rewrite Hid.
  split; [reflexivity | split; [reflexivity | split]].
  - unfold newLikesOf, checkIsLiked.
    destruct (includes (likes st) (Str (userId props))) eqn:E.
    + split; [reflexivity |].
      rewrite In_filter_others. tauto.
    + reflexivity.
  - intros Hocc. unfold specifiedToggle, newLikesOf, checkIsLiked.
    destruct (includes (likes st) (Str (userId props))) eqn:E.
    + apply filter_others_single; [now apply includes_In | assumption].
    + reflexivity.
Qed.

(** The scenario of the specification: item [P1] liked by [U2] and [U3],
    viewer [U1]; the local sequence and the remote update both become
    [U2; U3; U1]. *)
Lemma toggle_like_scenario :
  let props := {| post := Object 1 [("$id", Str "P1")]; userId := "U1" |} in
  let st := {| likes := [Str "U2"; Str "U3"]; isSaved := false |} in
  truthy (optGet (post props) "$id") = true /\
  exists es,
    run (handleLikePost props (likes st)) st =
      Normal ({| likes := [Str "U2"; Str "U3"; Str "U1"]; isSaved := false |}, es)
    /\ remoteCalls es = [LikePost (Str "P1") [Str "U2"; Str "U3"; Str "U1"]]
    /\ specifiedToggle "U1" [Str "U2"; Str "U3"] [Str "U2"; Str "U3"; Str "U1"].
Proof.
  intros props st. split; [reflexivity |].
  destruct (toggle_like_replaces_and_sends props st eq_refl)
    as [L' [es [Hrun [Hremote [_ [Hshape Hspec]]]]]].
  simpl in Hshape. subst L'. exists es.
  split; [exact Hrun | split; [exact Hremote |]].
  apply Hspec. vm_compute. lia.
Defined.

(** C1 as worded fails on a sequence that holds the viewer twice, as
    seeded from a remote list with a repeated entry: the handler drops
    both occurrences, the specification drops one. *)
Lemma toggle_like_drops_every_occurrence :
  let users := [Object 3 [("$id", Str "U1")]; Object 4 [("$id", Str "U1")]] in
  let props := {| post := Object 1 [("$id", Str "P1"); ("likes", Array 2 users)];
                  userId := "U1" |} in
  let st := {| likes := [Str "U1"; Str "U1"]; isSaved := false |} in
  mount props Undefined = Normal st /\
  truthy (optGet (post props) "$id") = true /\
  run (handleLikePost props (likes st)) st =
    Normal ({| likes := []; isSaved := false |},
            [StopPropagation; LikePost (Str "P1") []]) /\
  ~ specifiedToggle (userId props) (likes st) [].
Proof.
  intros users props st.
  split; [reflexivity | split; [reflexivity | split; [reflexivity |]]].
  unfold specifiedToggle. simpl.
  intros [L1 [L2 [HL HL']]].
  symmetry in HL'. apply app_eq_nil in HL'. destruct HL' as [-> ->].
  discriminate.
Qed.

(** C3, as the code has it.  When the item identifier is absent (the
    guard of line 61 fails) toggle-like issues no remote call, emits one
    diagnostic and leaves [isSaved] alone; the local like sequence is
    still replaced by the toggled one, since line 58 runs before the
    guard. *)
Theorem toggle_like_without_item_id (props : Props) (st : State) :
  truthy (optGet (post props) "$id") = false ->
  exists st' es,
    run (handleLikePost props (likes st)) st = Normal (st', es)
    /\ remoteCalls es = []
    /\ diagnostics es = [ConsoleWarn "Post ID is missing for like action."]
    /\ isSaved st' = isSaved st
    /\ likes st' = newLikesOf (likes st) (userId props).
Proof.
  intros Hid. do 2 eexists. rewrite run_handleLikePost, Hid.
  repeat split; reflexivity.
Qed.

Lemma toggle_like_without_item_id_witness :
  let props := {| post := Object 1 [("likes", Array 2 [])]; userId := "U1" |} in
  let st := {| likes := [Str "U2"]; isSaved := true |} in
  truthy (optGet (post props) "$id") = false /\
  exists st' es,
    run (handleLikePost props (likes st)) st = Normal (st', es)
    /\ remoteCalls es = []
    /\ diagnostics es = [ConsoleWarn "Post ID is missing for like action."]
    /\ isSaved st' = isSaved st
    /\ likes st' = newLikesOf (likes st) (userId props).
Proof.
  intros props st. split; [reflexivity |].
  apply (toggle_like_without_item_id props st). reflexivity.
Defined.

(** C3 as worded fails: with the item identifier absent the handler still
    mutates the local like sequence. *)
Lemma toggle_like_without_item_id_mutates_likes :
  let props := {| post := Object 1 [("likes", Array 2 [])]; userId := "U1" |} in
  let st := {| likes := []; isSaved := false |} in
  truthy (optGet (post props) "$id") = false /\
  exists st' es,
    run (handleLikePost props (likes st)) st = Normal (st', es)
    /\ likes st' = [Str "U1"]
    /\ st' <> st.
Proof.
  intros props st. split; [reflexivity |].
  do 2 eexists. split; [reflexivity | split; [reflexivity | discriminate]].
Qed.

(** C5.  Two toggle-likes in a row by the same viewer give back the
    membership of the original sequence: every value is in the final
    sequence iff it was in the original one, and [checkIsLiked] answers
    the same for every viewer.  With the item identifier present (the
    constraint of the operation), each of the two invocations issues its
    own remote like-update, carrying the sequence it produced. *)
Theorem toggle_like_twice (props : Props) (st : State) :
  exists st1 es1 st2 es2,
    run (handleLikePost props (likes st)) st = Normal (st1, es1)
    /\ run (handleLikePost props (likes st1)) st1 = Normal (st2, es2)
    /\ (forall x, In x (likes st2) <-> In x (likes st))
    /\ (forall w, checkIsLiked (likes st2) w = checkIsLiked (likes st) w)
    /\ (truthy (optGet (post props) "$id") = true ->
        remoteCalls es1 = [LikePost (optGet (post props) "$id") (likes st1)]
        /\ remoteCalls es2 = [LikePost (optGet (post props) "$id") (likes st2)]).
Proof.
  set (v := userId props).
  set (L1 := newLikesOf (likes st) v).
  assert (Hmem : forall x, In x (newLikesOf L1 v) <-> In x (likes st)).
  { intros x. subst L1. unfold newLikesOf at 2.
    destruct (includes (likes st) (Str v)) eqn:E.
    - (* v was present: removed, then appended *)
      unfold newLikesOf.
      assert (Hout : includes (JS.filter (fun id => negb (strictEq id (Str v)))
                                         (likes st)) (Str v) = false).
      { apply includes_false. rewrite In_filter_others. tauto. }
      rewrite Hout. unfold push. rewrite in_app_iff, In_filter_others. simpl.
      apply includes_In in E. split.
      + intros [[H _] | [H | []]]; [assumption | now subst].
      + intros H. destruct (strictEq x (Str v)) eqn:Ex.
        * apply strictEq_Str in Ex. right. left. now subst.
        * apply strictEq_Str_false in Ex. left. tauto.
    - (* v was absent: appended, then removed *)
      unfold newLikesOf.
      assert (Hin : includes (push (likes st) (Str v)) (Str v) = true).
      { apply includes_In. unfold push. rewrite in_app_iff. simpl. tauto. }
      rewrite Hin, In_filter_others. unfold push. rewrite in_app_iff. simpl.
      apply includes_false in E. split.
      + intros [[H | [H | []]] Hne]; [assumption | congruence].
      + intros H. split; [tauto | intros ->; tauto]. }
  do 4 eexists.
  split; [apply run_handleLikePost |].
  split; [apply run_handleLikePost |].
  split; [exact Hmem |].
  split.
  - intros w. simpl. unfold checkIsLiked. apply eq_true_iff_eq.
    rewrite !includes_In. apply Hmem.
  - intros Hid. rewrite Hid. split; reflexivity.
Qed.

Lemma toggle_like_twice_witness :
  let props := {| post := Object 1 [("$id", Str "P1")]; userId := "U3" |} in
  let st := {| likes := [Str "U2"; Str "U3"; Str "U4"]; isSaved := false |} in
  truthy (optGet (post props) "$id") = true /\
  exists st1 es1 st2 es2,
    run (handleLikePost props (likes st)) st = Normal (st1, es1)
    /\ run (handleLikePost props (likes st1)) st1 = Normal (st2, es2)
    /\ (forall x, In x (likes st2) <-> In x (likes st))
    /\ (forall w, checkIsLiked (likes st2) w = checkIsLiked (likes st) w)
    /\ remoteCalls es1 = [LikePost (Str "P1") (likes st1)]
    /\ remoteCalls es2 = [LikePost (Str "P1") (likes st2)].
Proof.
  intros props st. split; [reflexivity |].
  destruct (toggle_like_twice props st)
    as [st1 [es1 [st2 [es2 [H1 [H2 [Hmem [Hliked Hremote]]]]]]]].
  exists st1, es1, st2, es2.
  destruct (Hremote eq_refl) as [Hr1 Hr2].
  repeat split; try assumption; apply Hmem.
Defined.

(** C10.  Toggle-like by viewer [v] leaves every other viewer's
    membership as it was, and does not touch [isSaved]. *)
Theorem toggle_like_frame (props : Props) (st : State) (w : string) :
  w <> userId props ->
  exists st' es,
    run (handleLikePost props (likes st)) st = Normal (st', es)
    /\ checkIsLiked (likes st') w = checkIsLiked (likes st) w
    /\ isSaved st' = isSaved st.
Proof.
  intros Hw. do 2 eexists. split; [apply run_handleLikePost |].
  split; [| reflexivity]. simpl.
  unfold checkIsLiked, newLikesOf.
  destruct (includes (likes st) (Str (userId props))).
  - now apply includes_filter_others.
  - unfold push. rewrite includes_app. simpl.
    unfold sameValueZero. simpl.
    destruct (String.eqb (userId props) w) eqn:E.
    + apply String.eqb_eq in E. congruence.
    + now rewrite !orb_false_r.
Qed.

Lemma toggle_like_frame_witness :
  let props := {| post := Object 1 [("$id", Str "P1")]; userId := "U1" |} in
  let st := {| likes := [Str "U1"; Str "U2"]; isSaved := true |} in
  "U2" <> userId props /\
  exists st' es,
    run (handleLikePost props (likes st)) st = Normal (st', es)
    /\ checkIsLiked (likes st') "U2" = checkIsLiked (likes st) "U2"
    /\ isSaved st' = isSaved st.
Proof.
  intros props st. split; [discriminate |].
  apply (toggle_like_frame props st "U2"). discriminate.
Defined.

(** ** Seeding the like sequence *)

Section Seeding.

Lemma map_ids (users ids : list value) :
  Forall2 (fun user id => get user "$id" = Normal id) users ids ->
  JS.map (fun user => get user "$id") users = Normal ids.
Proof.
  induction 1 as [| user id users ids Hid _ IH]; simpl.
  - reflexivity.
  - rewrite Hid. simpl. rewrite IH. reflexivity.
Qed.

Lemma likesList_of_array (post : value) (loc : nat) (users ids : list value) :
  get post "likes" = Normal (Array loc users) ->
  Forall2 (fun user id => get user "$id" = Normal id) users ids ->
  likesList post = Normal ids.
Proof.
  intros Hl Hids. unfold likesList. rewrite Hl. simpl.
  now apply map_ids.
Qed.

Lemma likesList_of_non_array (post l : value) :
  get post "likes" = Normal l -> isArray l = false ->
  likesList post = Normal [].
Proof.
  intros Hl Harr. unfold likesList. rewrite Hl. simpl.
  rewrite Harr, andb_false_r. reflexivity.
Qed.

Lemma mount_with (props : Props) (currentUser : value)
      (l : list value) (record : value) :
  likesList (post props) = Normal l ->
  savedPostRecord currentUser (post props) = Normal record ->
  mount props currentUser = Normal {| likes := l; isSaved := truthy record |}.
Proof.
  intros Hl Hr. unfold mount, PostStats. rewrite Hl. simpl.
  rewrite Hr. reflexivity.
Qed.

Lemma mount_likes (props : Props) (currentUser : value) (st : State) :
  mount props currentUser = Normal st ->
  likesList (post props) = Normal (likes st).
Proof.
  unfold mount, PostStats.
  destruct (likesList (post props)) as [l | e]; simpl; [| discriminate].
  destruct (savedPostRecord currentUser (post props)); simpl;
    [| discriminate].
  intros H. inversion H. reflexivity.
Qed.

End Seeding.

(** C8.  For an item whose [likes] field is null, absent or anything but
    an array, the initial like sequence is empty: [likesList] evaluates
    to the empty sequence, every mount that completes starts from it,
    and [checkIsLiked] is false on it for every viewer. *)
Theorem likes_normalized_to_empty (props : Props) (l : value) :
  get (post props) "likes" = Normal l ->
  isArray l = false ->
  likesList (post props) = Normal []
  /\ (forall currentUser record,
        savedPostRecord currentUser (post props) = Normal record ->
        mount props currentUser = Normal {| likes := []; isSaved := truthy record |})
  /\ (forall currentUser st,
        mount props currentUser = Normal st ->
        likes st = [] /\ forall v, checkIsLiked (likes st) v = false).
Proof.
  intros Hl Harr.
  pose proof (likesList_of_non_array _ _ Hl Harr) as Hseed.
  split; [assumption | split].
  - intros currentUser record Hr. now apply mount_with.
  - intros currentUser st Hm. apply mount_likes in Hm.
    rewrite Hseed in Hm. inversion Hm as [Hlikes].
    split; [reflexivity |]. intros v. reflexivity.
Qed.

(** C9, as the code has it.  Every toggle-like preserves the
    at-most-once property, from whatever sequence and for whatever post
    and viewer.  The seed is the remote list, identifier by identifier,
    with no de-duplication: the initial like sequence holds each
    identifier at most once whenever the seed does, which is the case
    when the remote [likes] array lists pairwise distinct identifiers,
    and when [likes] is not an array at all (the seed is then empty).
    From such a seed the property holds in every state the mounted
    component reaches, the initial one included. *)
Theorem likes_at_most_once (props : Props) :
  (forall st,
     NoDup (likes st) ->
     exists st' es,
       run (handleLikePost props (likes st)) st = Normal (st', es)
       /\ NoDup (likes st'))
  /\ (forall seed,
        likesList (post props) = Normal seed ->
        NoDup seed ->
        (forall currentUser record,
           savedPostRecord currentUser (post props) = Normal record ->
           exists st,
             mount props currentUser = Normal st
             /\ likes st = seed /\ NoDup (likes st))
        /\ (forall currentUser st,
              reachable props currentUser st -> NoDup (likes st)))
  /\ (forall loc users ids,
        get (post props) "likes" = Normal (Array loc users) ->
        Forall2 (fun user id => get user "$id" = Normal id) users ids ->
        NoDup ids ->
        likesList (post props) = Normal ids
        /\ (forall currentUser st,
              reachable props currentUser st -> NoDup (likes st)))
  /\ (forall l,
        get (post props) "likes" = Normal l ->
        isArray l = false ->
        likesList (post props) = Normal []
        /\ (forall currentUser st,
              reachable props currentUser st -> NoDup (likes st))).
Proof.
  assert (Hstep : forall st, NoDup (likes st) ->
            NoDup (newLikesOf (likes st) (userId props))).
  { intros st Hst. unfold newLikesOf.
    destruct (includes (likes st) (Str (userId props))) eqn:E.
    - unfold JS.filter. now apply NoDup_filter.
    - unfold push. apply NoDup_snoc; [assumption |].
      now apply includes_false. }
  assert (Hreach : forall seed,
            likesList (post props) = Normal seed -> NoDup seed ->
            forall currentUser st,
              reachable props currentUser st -> NoDup (likes st)).
  { intros seed Hseed Hnd currentUser st Hreach.
    induction Hreach as [cu st Hm | cu st st' es _ IH Hclick
                         | cu st st' es _ IH Hclick | cu cu' st st' _ IH Hd].
    - apply mount_likes in Hm. rewrite Hseed in Hm.
      assert (Hlikes : seed = likes st) by congruence.
      now rewrite <- Hlikes.
    - apply clickLike_runs_handler in Hclick.
      rewrite run_handleLikePost in Hclick. inversion Hclick.
      now apply Hstep.
    - rewrite (clickSave_keeps_likes _ _ _ _ _ Hclick). exact IH.
    - rewrite (derive_keeps_likes _ _ _ _ Hd). exact IH. }
  split; [| split; [| split]].
  - intros st Hst. do 2 eexists. split; [apply run_handleLikePost |].
    now apply Hstep.
  - intros seed Hseed Hnd. split; [| now apply (Hreach seed)].
    intros currentUser record Hr. eexists.
    split; [apply (mount_with _ _ _ _ Hseed Hr) |].
    split; [reflexivity | assumption].
  - intros loc users ids Hl Hids Hnd.
    pose proof (likesList_of_array _ _ _ _ Hl Hids) as Hseed.
    split; [assumption | now apply (Hreach ids)].
  - intros l Hl Harr.
    pose proof (likesList_of_non_array _ _ Hl Harr) as Hseed.
    split; [assumption | apply (Hreach []); [assumption | constructor]].
Qed.

Lemma likes_normalized_to_empty_witness :
  let props := {| post := Object 1 [("$id", Str "P1"); ("likes", Null)];
                  userId := "U1" |} in
  get (post props) "likes" = Normal Null /\
  isArray Null = false /\
  likesList (post props) = Normal []
  /\ (forall currentUser record,
        savedPostRecord currentUser (post props) = Normal record ->
        mount props currentUser = Normal {| likes := []; isSaved := truthy record |})
  /\ (forall currentUser st,
        mount props currentUser = Normal st ->
        likes st = [] /\ forall v, checkIsLiked (likes st) v = false).
Proof.
  intros props. split; [reflexivity | split; [reflexivity |]].
  apply (likes_normalized_to_empty props Null); reflexivity.
Defined.

Lemma likes_at_most_once_witness :
  let users := [Object 3 [("$id", Str "U2")]; Object 4 [("$id", Str "U3")]] in
  let ids := [Str "U2"; Str "U3"] in
  let props := {| post := Object 1 [("$id", Str "P1"); ("likes", Array 2 users)];
                  userId := "U1" |} in
  let unliked := {| post := Object 1 [("$id", Str "P1"); ("likes", Null)];
                    userId := "U1" |} in
  let st := {| likes := [Str "U1"; Str "U2"]; isSaved := false |} in
  NoDup ids /\ NoDup (likes st)
  /\ (exists st' es,
        run (handleLikePost unliked (likes st)) st = Normal (st', es)
        /\ NoDup (likes st'))
  /\ likesList (post props) = Normal ids
  /\ (forall currentUser s,
        reachable props currentUser s -> NoDup (likes s))
  /\ likesList (post unliked) = Normal []
  /\ (forall currentUser s,
        reachable unliked currentUser s -> NoDup (likes s)).
Proof.
  intros users ids props unliked st.
  assert (Hids : NoDup ids).
  { repeat constructor; simpl; intuition discriminate. }
  assert (Hst : NoDup (likes st)).
  { repeat constructor; simpl; intuition discriminate. }
  destruct (likes_at_most_once props) as [_ [_ [Harray _]]].
  destruct (likes_at_most_once unliked) as [Hkeep [_ [_ Hother]]].
  destruct (Harray 2 users ids eq_refl) as [Hseed Hreach];
    [repeat constructor | exact Hids |].
  destruct (Hother Null eq_refl eq_refl) as [Hseed0 Hreach0].
  split; [exact Hids |]. split; [exact Hst |].
  split; [exact (Hkeep st Hst) |].
  split; [exact Hseed |]. split; [exact Hreach |].
  split; [exact Hseed0 | exact Hreach0].
Defined.

(** C9 as worded fails on a remote snapshot that lists a user twice: the
    seed keeps both entries. *)
Lemma seed_keeps_duplicates :
  let users := [Object 3 [("$id", Str "U1")]; Object 4 [("$id", Str "U1")]] in
  let props := {| post := Object 1 [("$id", Str "P1"); ("likes", Array 2 users)];
                  userId := "U1" |} in
  mount props Undefined = Normal {| likes := [Str "U1"; Str "U1"]; isSaved := false |}
  /\ ~ NoDup [Str "U1"; Str "U1"].
Proof.
  intros users props. split; [reflexivity |].
  intros H. inversion H as [| x l Hnotin _]. apply Hnotin. now left.
Qed.

(** ** The derived saved flag *)

Section Derivation.

Variable post : value.

Lemma refersTo_Object (record : value) :
  isObject record = true ->
  refersTo post record =
  Normal (strictEq (optGet (optGet record "post") "$id") (optGet post "$id")).
Proof.
  intros Hobj. unfold refersTo. rewrite (get_Object _ _ Hobj). reflexivity.
Qed.

(** On a collection of documents [find] completes, and what it returns
    is truthy exactly when some record refers to the item. *)
Lemma find_refersTo (records : list value) :
  forallb isObject records = true ->
  exists found,
    JS.find (refersTo post) records = Normal found
    /\ (truthy found = true <->
        exists record,
          In record records
          /\ strictEq (optGet (optGet record "post") "$id")
                      (optGet post "$id") = true).
Proof.
  induction records as [| r rs IH]; simpl; intros Hall.
  - exists Undefined. split; [reflexivity |]. simpl. split.
    + discriminate.
    + intros [record [[] _]].
  - apply andb_true_iff in Hall. destruct Hall as [Hr Hrs].
    rewrite (refersTo_Object r Hr). simpl.
    destruct (strictEq (optGet (optGet r "post") "$id") (optGet post "$id"))
      eqn:E.
    + exists r. split; [reflexivity |]. split.
      * intros _. exists r. split; [now left | assumption].
      * intros _. destruct r; simpl in Hr; try discriminate. reflexivity.
    + destruct (IH Hrs) as [found [Hfind Hiff]].
      exists found. split; [assumption |]. rewrite Hiff. split.
      * intros [record [Hin Heq]]. exists record. split; [now right | assumption].
      * intros [record [[Hin | Hin] Heq]].
        -- subst. congruence.
        -- exists record. now split.
Qed.

Lemma savedPostRecord_resolves (currentUser : value) :
  viewerSnapshot currentUser = true ->
  exists found,
    savedPostRecord currentUser post = Normal found
    /\ (truthy found = true <->
        exists record,
          In record (savedRecords currentUser)
          /\ strictEq (optGet (optGet record "post") "$id")
                      (optGet post "$id") = true).
Proof.
  unfold viewerSnapshot, savedRecords, savedPostRecord.
  intros Hv.
  assert (Hnone : forall found, found = Undefined ->
            (truthy found = true <->
             exists record : value,
               In record [] /\
               strictEq (optGet (optGet record "post") "$id")
                        (optGet post "$id") = true)).
  { intros found ->. simpl. split; [discriminate | intros [r [[] _]]]. }
  destruct currentUser as [| | b | n | s | loc xs | loc ps]; simpl in *;
    try (exists Undefined; split; [reflexivity | now apply Hnone]).
  destruct (ownProperty "save" ps) as [| | b | n | s | l2 rs | l2 qs];
    simpl in *; try discriminate;
    try (exists Undefined; split; [reflexivity | now apply Hnone]).
  now apply find_refersTo.
Qed.

End Derivation.

(** C2.  After a derivation pass (the one at mount as well as any later
    one) [isSaved] is true if and only if the viewer's saved-record
    collection contains a record whose referenced item identifier
    [record.post?.$id] equals the current item's identifier [post?.$id],
    whatever [isSaved] was before; the like sequence is not touched.
    Identifiers are compared as the code compares them, with [===]; for
    an item identifier that is a string this is equality with that
    string.  The viewer snapshot is typed as the query layer types it,
    and the item snapshot is one the component renders. *)
Theorem isSaved_derivation (props : Props) (currentUser : value) (st : State)
        (l : list value) :
  viewerSnapshot currentUser = true ->
  likesList (post props) = Normal l ->
  exists st0 st',
    mount props currentUser = Normal st0
    /\ derive props currentUser st = Normal st'
    /\ likes st' = likes st
    /\ isSaved st0 = isSaved st'
    /\ (isSaved st' = true <->
        exists record,
          In record (savedRecords currentUser)
          /\ strictEq (optGet (optGet record "post") "$id")
                      (optGet (post props) "$id") = true)
    /\ (forall i,
          optGet (post props) "$id" = Str i ->
          (isSaved st' = true <->
           exists record,
             In record (savedRecords currentUser)
             /\ optGet (optGet record "post") "$id" = Str i)).
Proof.
  intros Hv Hl.
  destruct (savedPostRecord_resolves (post props) currentUser Hv)
    as [found [Hfound Hiff]].
  exists {| likes := l; isSaved := truthy found |},
         {| likes := likes st; isSaved := truthy found |}.
  split; [now apply mount_with |].
  split.
  { unfold derive, PostStats. rewrite Hl. simpl. rewrite Hfound. reflexivity. }
  split; [reflexivity |]. split; [reflexivity |].
  split; [exact Hiff |].
  intros i Hi. simpl. rewrite Hiff, Hi. split.
  - intros [record [Hin Heq]]. exists record. split; [assumption |].
    now apply strictEq_Str.
  - intros [record [Hin Heq]]. exists record. split; [assumption |].
    now apply strictEq_Str.
Qed.

(** The scenario of the specification: viewer [U1] holds the saved
    record [R9] of item [P1]; the flag was false before the pass. *)
Lemma isSaved_derivation_witness :
  let props := {| post := Object 1 [("$id", Str "P1"); ("likes", Array 2 [])];
                  userId := "U1" |} in
  let currentUser :=
    Object 10 [("$id", Str "U1");
               ("save", Array 11 [Object 12 [("$id", Str "R9");
                                             ("post", Object 13 [("$id", Str "P1")])]])] in
  let st := {| likes := []; isSaved := false |} in
  viewerSnapshot currentUser = true /\
  likesList (post props) = Normal [] /\
  derive props currentUser st = Normal {| likes := []; isSaved := true |} /\
  exists st0 st',
    mount props currentUser = Normal st0
    /\ derive props currentUser st = Normal st'
    /\ likes st' = likes st
    /\ isSaved st0 = isSaved st'
    /\ (isSaved st' = true <->
        exists record,
          In record (savedRecords currentUser)
          /\ strictEq (optGet (optGet record "post") "$id")
                      (optGet (post props) "$id") = true)
    /\ (forall i,
          optGet (post props) "$id" = Str i ->
          (isSaved st' = true <->
           exists record,
             In record (savedRecords currentUser)
             /\ optGet (optGet record "post") "$id" = Str i)).
Proof.
  intros props currentUser st.
  split; [reflexivity | split; [reflexivity | split; [reflexivity |]]].
  apply (isSaved_derivation props currentUser st []); reflexivity.
Defined.

(** ** Toggle-save *)

(** C4, as the code has it.  An invocation of toggle-save issues at most
    one remote call, chosen by whether a saved record is resolved in the
    render the handler belongs to.  Resolved: [isSaved] becomes false,
    and the record is deleted by its identifier when that identifier is
    present.  Not resolved: when the item and viewer identifiers are
    present [isSaved] becomes true and a record binding viewer to item
    is created; otherwise nothing is issued and the state is left as it
    was.  The like sequence is never touched. *)
Theorem toggle_save_branches (props : Props) (savedPostRecord : value) (st : State) :
  exists st' es,
    run (handleSavePost props savedPostRecord) st = Normal (st', es)
    /\ likes st' = likes st
    /\ List.length (remoteCalls es) <= 1
    /\ (if truthy savedPostRecord then
          isSaved st' = false
          /\ remoteCalls es =
             (if truthy (optGet savedPostRecord "$id")
              then [DeleteSavedPost (optGet savedPostRecord "$id")]
              else [])
        else if truthy (optGet (post props) "$id")
                && negb (String.eqb (userId props) "") then
          isSaved st' = true
          /\ remoteCalls es = [SavePost (optGet (post props) "$id") (userId props)]
        else
          st' = st /\ remoteCalls es = []).
Proof.
  rewrite run_handleSavePost. simpl truthy.
  destruct (truthy savedPostRecord).
  - do 2 eexists. split; [reflexivity |].
    destruct (truthy (optGet savedPostRecord "$id")); simpl; auto.
  - destruct (truthy (optGet (post props) "$id")
              && negb (String.eqb (userId props) ""));
      do 2 eexists; (split; [reflexivity |]); simpl; auto.
Qed.

(** C4 as worded fails: with no record resolved and no viewer identifier
    (the empty identifier of a viewer not yet loaded) the invocation
    issues neither a create nor a delete. *)
Lemma toggle_save_may_issue_nothing :
  let props := {| post := Object 1 [("$id", Str "P1"); ("likes", Array 2 [])];
                  userId := "" |} in
  let st := {| likes := []; isSaved := false |} in
  mount props Undefined = Normal st
  /\ clickSave props Undefined st =
     Normal (st, [StopPropagation;
                  ConsoleWarn "Post ID or User ID is missing for save action."])
  /\ remoteCalls [StopPropagation;
                  ConsoleWarn "Post ID or User ID is missing for save action."] = [].
Proof. intros props st. repeat split. Qed.

(** C6, as the code has it.  With the item identifier absent and no
    saved record resolved, toggle-save issues no remote call, emits one
    diagnostic and leaves the state, [isSaved] included, as it was. *)
Theorem toggle_save_without_item_id (props : Props) (savedPostRecord : value)
        (st : State) :
  truthy (optGet (post props) "$id") = false ->
  truthy savedPostRecord = false ->
  exists es,
    run (handleSavePost props savedPostRecord) st = Normal (st, es)
    /\ remoteCalls es = []
    /\ diagnostics es =
       [ConsoleWarn "Post ID or User ID is missing for save action."].
Proof.
  intros Hid Hrec. eexists. rewrite run_handleSavePost, Hrec, Hid.
  repeat split.
Qed.

Lemma toggle_save_without_item_id_witness :
  let props := {| post := Object 1 [("likes", Array 2 [])]; userId := "U1" |} in
  let st := {| likes := [Str "U2"]; isSaved := false |} in
  truthy (optGet (post props) "$id") = false /\
  truthy Undefined = false /\
  exists es,
    run (handleSavePost props Undefined) st = Normal (st, es)
    /\ remoteCalls es = []
    /\ diagnostics es =
       [ConsoleWarn "Post ID or User ID is missing for save action."].
Proof.
  intros props st. split; [reflexivity | split; [reflexivity |]].
  apply (toggle_save_without_item_id props Undefined st); reflexivity.
Defined.

(** C6 as worded fails: an item without identifier and a saved record
    whose post reference is gone compare equal ([undefined === undefined]
    at line 33), so the record is resolved; toggle-save then clears
    [isSaved] and deletes that record. *)
Lemma toggle_save_without_item_id_deletes :
  let props := {| post := Object 1 [("likes", Array 2 [])]; userId := "U1" |} in
  let currentUser :=
    Object 10 [("$id", Str "U1");
               ("save", Array 11 [Object 12 [("$id", Str "R9"); ("post", Null)]])] in
  truthy (optGet (post props) "$id") = false
  /\ mount props currentUser = Normal {| likes := []; isSaved := true |}
  /\ clickSave props currentUser {| likes := []; isSaved := true |} =
     Normal ({| likes := []; isSaved := false |},
             [StopPropagation; DeleteSavedPost (Str "R9")]).
Proof. intros props currentUser. repeat split. Qed.

(** ** Rendering *)

(** The early return of line 93 is reached only with a [post] that is
    falsy and yet not nullish. *)
Lemma Loading_only_for_falsy_non_nullish (props : Props) (currentUser : value)
      (cells : option State) (r : Rendered) :
  PostStats props currentUser cells = Normal r ->
  r_view r = Loading ->
  nullish (post props) = false /\ truthy (post props) = false.
Proof.
  unfold PostStats.
  destruct (likesList (post props)) as [l | e] eqn:Hl; simpl; [| discriminate].
  destruct (savedPostRecord currentUser (post props)); simpl; [| discriminate].
  intros Hr Hview. inversion Hr as [Hr']. rewrite <- Hr' in Hview.
  simpl in Hview.
  destruct (truthy (post props)) eqn:Et; simpl in Hview; [discriminate |].
  split; [| reflexivity].
  unfold likesList in Hl.
  destruct (post props); simpl in Hl; try discriminate; reflexivity.
Qed.

(** C7 fails on an absent item snapshot.  With [post] undefined or null
    the component function throws at line 14, on every render, before
    any hook and before the early return of line 93: the exception
    leaves the component. *)
Theorem render_throws_without_post (uid : string) (currentUser : value)
        (cells : option State) :
  PostStats {| post := Undefined; userId := uid |} currentUser cells
  = Throw (TypeError "Cannot read properties of undefined")
  /\ PostStats {| post := Null; userId := uid |} currentUser cells
     = Throw (TypeError "Cannot read properties of null")
  /\ mount {| post := Undefined; userId := uid |} currentUser
     = Throw (TypeError "Cannot read properties of undefined").
Proof. repeat split. Qed.


(** * Further properties of the component *)

Section MoreValueLemmas.

Lemma get_non_nullish (v : value) (k : string) :
  nullish v = false -> get v k = Normal (optGet v k).
Proof. destruct v; simpl; intros H; try discriminate; reflexivity. Qed.

Lemma get_nullish_throws (v : value) (k : string) :
  nullish v = true -> exists e, get v k = Throw e.
Proof. destruct v; simpl; intros H; try discriminate; eexists; reflexivity. Qed.

Lemma truthy_not_nullish (v : value) :
  truthy v = true -> nullish v = false.
Proof. destruct v; simpl; intros H; try discriminate; reflexivity. Qed.

Lemma length_filter_others (L : list value) (v : string) :
  List.length (JS.filter (fun id => negb (strictEq id (Str v))) L)
  + occurrences v L = List.length L.
Proof.
  unfold JS.filter, occurrences.
  induction L as [| x L IH]; simpl; [reflexivity |].
  destruct (strictEq x (Str v)); simpl; lia.
Qed.

Lemma occurrences_positive (L : list value) (v : string) :
  In (Str v) L -> 1 <= occurrences v L.
Proof.
  intros Hin. destruct (occurrences v L) eqn:E; [| lia].
  apply occurrences_zero in E. contradiction.
Qed.

Lemma includes_newLikesOf (L : list value) (v : string) :
  includes (newLikesOf L v) (Str v) = negb (includes L (Str v)).
Proof.
  unfold newLikesOf. destruct (includes L (Str v)) eqn:E; simpl.
  - apply includes_false. rewrite In_filter_others. tauto.
  - apply includes_In. unfold push. rewrite in_app_iff. simpl. tauto.
Qed.

Lemma length_newLikesOf (L : list value) (v : string) :
  List.length (newLikesOf L v) =
  if includes L (Str v) then List.length L - occurrences v L
  else List.length L + 1.
Proof.
  unfold newLikesOf. destruct (includes L (Str v)).
  - pose proof (length_filter_others L v). lia.
  - unfold push. rewrite length_app. reflexivity.
Qed.

End MoreValueLemmas.

Section RenderLemmas.

Variables (props : Props) (currentUser : value).

(** A render depends on the cells only through what it shows of them. *)
Lemma PostStats_rerender (st st' : State) (r : Rendered) :
  PostStats props currentUser (Some st) = Normal r ->
  PostStats props currentUser (Some st') =
  Normal {| r_state := st';
            r_savedPostRecord := r_savedPostRecord r;
            r_view := if negb (truthy (post props)) then Loading
                      else Stats (checkIsLiked (likes st') (userId props))
                                 (List.length (likes st'))
                                 (isSaved st') |}.
Proof.
  unfold PostStats.
  destruct (likesList (post props)); simpl; [| discriminate].
  destruct (savedPostRecord currentUser (post props)); simpl; [| discriminate].
  intros H. inversion H. reflexivity.
Qed.

Lemma PostStats_view (st : State) (r : Rendered) :
  PostStats props currentUser (Some st) = Normal r ->
  r_view r = if negb (truthy (post props)) then Loading
             else Stats (checkIsLiked (likes st) (userId props))
                        (List.length (likes st))
                        (isSaved st).
Proof.
  intros H. rewrite (PostStats_rerender st st r H) in H.
  inversion H. reflexivity.
Qed.

Lemma clickLike_result (st : State) (r : Rendered) :
  PostStats props currentUser (Some st) = Normal r ->
  clickLike props currentUser st =
  Normal ({| likes := newLikesOf (likes st) (userId props);
             isSaved := isSaved st |},
          [StopPropagation;
           if truthy (optGet (post props) "$id")
           then LikePost (optGet (post props) "$id")
                         (newLikesOf (likes st) (userId props))
           else ConsoleWarn "Post ID is missing for like action."]).
Proof.
  intros Hr. unfold clickLike. rewrite Hr. simpl.
  rewrite (PostStats_keeps_cells _ _ _ _ Hr). apply run_handleLikePost.
Qed.

Lemma clickSave_result (st : State) (r : Rendered) :
  PostStats props currentUser (Some st) = Normal r ->
  clickSave props currentUser st =
  run (handleSavePost props (r_savedPostRecord r)) st.
Proof.
  intros Hr. unfold clickSave. rewrite Hr. simpl.
  now rewrite (PostStats_keeps_cells _ _ _ _ Hr).
Qed.

End RenderLemmas.

(** X1.  A click on the like icon always flips the icon the viewer
    sees: the next render completes and shows the opposite liked state,
    the same saved state, and a like count one higher after a like, or
    lower by the number of entries the viewer had (at least one) after
    an unlike. *)
Theorem click_like_flips_icon (props : Props) (currentUser : value)
        (st : State) (r : Rendered) (liked : bool) (n : nat) (saved : bool) :
  PostStats props currentUser (Some st) = Normal r ->
  r_view r = Stats liked n saved ->
  exists st' es r',
    clickLike props currentUser st = Normal (st', es)
    /\ PostStats props currentUser (Some st') = Normal r'
    /\ r_view r' =
       Stats (negb liked)
             (if liked then n - occurrences (userId props) (likes st) else n + 1)
             saved
    /\ (liked = true -> 1 <= occurrences (userId props) (likes st) <= n).
Proof.
  intros Hr Hview.
  rewrite (PostStats_view _ _ _ _ Hr) in Hview.
  destruct (negb (truthy (post props))) eqn:Hp; [discriminate |].
  inversion Hview as [[Hliked Hn Hsaved]]. clear Hview.
  do 3 eexists.
  split; [apply (clickLike_result _ _ _ _ Hr) |].
  split; [apply (PostStats_rerender _ _ _ _ _ Hr) |].
  rewrite Hp. simpl. unfold checkIsLiked.
  rewrite includes_newLikesOf, length_newLikesOf.
  split; [reflexivity |].
  intros Hl. apply includes_In in Hl.
  pose proof (occurrences_positive _ _ Hl).
  pose proof (length_filter_others (likes st) (userId props)). lia.
Qed.

Lemma click_like_flips_icon_witness :
  let props := {| post := Object 1 [("$id", Str "P1");
                                    ("likes", Array 2 [Object 3 [("$id", Str "U1")]])];
                  userId := "U1" |} in
  let st := {| likes := [Str "U1"]; isSaved := false |} in
  PostStats props Undefined (Some st) =
    Normal {| r_state := st; r_savedPostRecord := Undefined;
              r_view := Stats true 1 false |}
  /\ exists st' es r',
    clickLike props Undefined st = Normal (st', es)
    /\ PostStats props Undefined (Some st') = Normal r'
    /\ r_view r' = Stats false 0 false.
Proof.
  intros props st. split; [reflexivity |].
  destruct (click_like_flips_icon props Undefined st _ true 1 false
              eq_refl eq_refl) as [st' [es [r' [H1 [H2 [H3 _]]]]]].
  exists st', es, r'. split; [exact H1 | split; [exact H2 | exact H3]].
Defined.

(** X2.  Two toggle-likes in a row give back exactly the original
    sequence when the viewer was not in it; when the viewer was in it,
    the other entries keep their order and the viewer ends up as the
    single last entry. *)
Theorem toggle_like_twice_order (props : Props) (st : State) :
  exists st1 es1 st2 es2,
    run (handleLikePost props (likes st)) st = Normal (st1, es1)
    /\ run (handleLikePost props (likes st1)) st1 = Normal (st2, es2)
    /\ likes st2 =
       if checkIsLiked (likes st) (userId props)
       then List.filter (fun id => negb (strictEq id (Str (userId props))))
                        (likes st) ++ [Str (userId props)]
       else likes st.
Proof.
  do 4 eexists.
  split; [apply run_handleLikePost |].
  split; [apply run_handleLikePost |].
  simpl. unfold checkIsLiked.
  unfold newLikesOf at 1. rewrite includes_newLikesOf.
  destruct (includes (likes st) (Str (userId props))) eqn:E; simpl.
  - unfold newLikesOf. rewrite E. reflexivity.
  - unfold newLikesOf. rewrite E. unfold push, JS.filter.
    rewrite filter_app. simpl.
    rewrite String.eqb_refl. simpl. rewrite app_nil_r.
    apply (filter_others_absent (likes st) (userId props)).
    now apply includes_false.
Qed.

(** X3.  The remote call of toggle-save is decided by the viewer
    snapshot alone, not by the local flag: a second click before a new
    snapshot arrives leaves the state as the first click left it and
    repeats the same remote call (the same create, or the same delete),
    whatever the flag shows. *)
Theorem click_save_repeats (props : Props) (currentUser : value)
        (st st1 : State) (es : list Effect) :
  clickSave props currentUser st = Normal (st1, es) ->
  clickSave props currentUser st1 = Normal (st1, es).
Proof.
  unfold clickSave.
  destruct (PostStats props currentUser (Some st)) as [r | e] eqn:Hr; simpl;
    [| discriminate].
  rewrite (PostStats_rerender _ _ st st1 r Hr). simpl.
  rewrite (PostStats_keeps_cells _ _ _ _ Hr).
  rewrite !run_handleSavePost.
  destruct (truthy (r_savedPostRecord r)).
  - intros H. inversion H. reflexivity.
  - destruct (truthy (optGet (post props) "$id") && truthy (Str (userId props))).
    + intros H. inversion H. reflexivity.
    + intros H. inversion H. subst. reflexivity.
Qed.

Lemma click_save_repeats_witness :
  let props := {| post := Object 1 [("$id", Str "P1"); ("likes", Array 2 [])];
                  userId := "U1" |} in
  let currentUser := Object 10 [("$id", Str "U1"); ("save", Array 11 [])] in
  let st := {| likes := []; isSaved := false |} in
  let st1 := {| likes := []; isSaved := true |} in
  clickSave props currentUser st =
    Normal (st1, [StopPropagation; SavePost (Str "P1") "U1"])
  /\ clickSave props currentUser st1 =
    Normal (st1, [StopPropagation; SavePost (Str "P1") "U1"]).
Proof.
  intros props currentUser st st1. split; [reflexivity |].
  apply (click_save_repeats props currentUser st). reflexivity.
Defined.


Section SeedCompletion.

Lemma map_ids_completes (users : list value) :
  (exists ids, JS.map (fun user => get user "$id") users = Normal ids)
  <-> forallb (fun user => negb (nullish user)) users = true.
Proof.
  induction users as [| u users IH]; simpl.
  - split; [reflexivity | intros _; now exists []].
  - rewrite andb_true_iff, negb_true_iff, <- IH. split.
    + intros [ids H]. destruct (nullish u) eqn:Hu.
      * destruct (get_nullish_throws u "$id" Hu) as [e He].
        rewrite He in H. discriminate.
      * split; [reflexivity |].
        rewrite (get_non_nullish u "$id" Hu) in H. simpl in H.
        destruct (JS.map (fun user => get user "$id") users) as [l | e];
          [now exists l | discriminate].
    + intros [Hu [ids H]]. rewrite (get_non_nullish u "$id" Hu). simpl.
      rewrite H. simpl. eexists. reflexivity.
Qed.

End SeedCompletion.

(** X5.  Seeding the like sequence completes exactly when there is a
    post and, if its [likes] field is an array, no entry of that array
    is null or undefined: malformed [likes] are tolerated, a missing
    post or a missing entry in a well-formed list is not. *)
Theorem likesList_completes_iff (post : value) :
  (exists ids, likesList post = Normal ids)
  <-> nullish post = false
      /\ (forall loc users,
            optGet post "likes" = Array loc users ->
            forallb (fun user => negb (nullish user)) users = true).
Proof.
  unfold likesList. split.
  - intros [ids H]. destruct (nullish post) eqn:Hp.
    + destruct (get_nullish_throws post "likes" Hp) as [e He].
      rewrite He in H. discriminate.
    + split; [reflexivity |]. intros loc users Hl.
      rewrite (get_non_nullish post "likes" Hp), Hl in H. simpl in H.
      apply map_ids_completes. now exists ids.
  - intros [Hp Hall]. rewrite (get_non_nullish post "likes" Hp). simpl.
    destruct (optGet post "likes") as [| | b | n | s | loc users | loc ps] eqn:Hl;
      simpl; try (now exists []).
    + destruct b; now exists [].
    + destruct (negb (n =? 0)%Z); now exists [].
    + destruct (negb (s =? "")%string); now exists [].
    + apply map_ids_completes. now apply (Hall loc).
Qed.

Section Resolution.

Variable post : value.

Lemma refersTo_non_nullish (record : value) :
  nullish record = false ->
  refersTo post record = Normal (matches post record).
Proof.
  intros H. unfold refersTo, matches.
  rewrite (get_non_nullish _ _ H). reflexivity.
Qed.

Lemma refersTo_true (record : value) :
  refersTo post record = Normal true ->
  nullish record = false /\ matches post record = true.
Proof.
  intros H. destruct (nullish record) eqn:Hn.
  - destruct (get_nullish_throws record "post" Hn) as [e He].
    unfold refersTo in H. rewrite He in H. discriminate.
  - rewrite (refersTo_non_nullish _ Hn) in H. inversion H as [Hm].
    split; [reflexivity | now rewrite Hm].
Qed.

(** What [find] returns is [undefined] or a record of the collection
    that refers to the item. *)
Lemma find_refersTo_sound (records : list value) (found : value) :
  JS.find (refersTo post) records = Normal found ->
  found = Undefined
  \/ (In found records /\ nullish found = false /\ matches post found = true).
Proof.
  induction records as [| r rs IH]; simpl; intros H.
  - inversion H. now left.
  - destruct (refersTo post r) as [[|] | e] eqn:Hr; simpl in H;
      [| | discriminate].
    + inversion H; subst. right. apply refersTo_true in Hr. tauto.
    + destruct (IH H) as [-> | [Hin Hrest]]; [now left |].
      right. split; [now right | assumption].
Qed.

(** A matching record hides every record behind it. *)
Lemma find_refersTo_first (before behind : list value) (record : value) :
  forallb (fun r => negb (nullish r) && negb (matches post r)) before = true ->
  nullish record = false ->
  matches post record = true ->
  JS.find (refersTo post) (before ++ record :: behind) = Normal record.
Proof.
  intros Hbefore Hn Hm.
  induction before as [| r rs IH]; simpl.
  - rewrite (refersTo_non_nullish _ Hn), Hm. reflexivity.
  - simpl in Hbefore. apply andb_true_iff in Hbefore.
    destruct Hbefore as [Hr Hrs]. apply andb_true_iff in Hr.
    destruct Hr as [Hrn Hrm]. apply negb_true_iff in Hrn, Hrm.
    rewrite (refersTo_non_nullish _ Hrn), Hrm. simpl. now apply IH.
Qed.

Lemma savedPostRecord_of_array (currentUser : value) (loc : nat)
      (records : list value) :
  optGet currentUser "save" = Array loc records ->
  savedPostRecord currentUser post = JS.find (refersTo post) records.
Proof.
  intros Hs. unfold savedPostRecord.
  destruct currentUser; simpl in *; try discriminate.
  rewrite Hs. reflexivity.
Qed.

Lemma savedPostRecord_sound (currentUser found : value) :
  savedPostRecord currentUser post = Normal found ->
  truthy found = true ->
  In found (savedRecords currentUser) /\ matches post found = true.
Proof.
  intros H Ht. unfold savedRecords.
  destruct (optGet currentUser "save") as [| | b | n | s | loc rs | loc ps]
    eqn:Hs.
  all: try (unfold savedPostRecord in H;
            destruct currentUser; simpl in *; try discriminate;
            try (inversion H; subst; discriminate);
            rewrite Hs in H; simpl in H;
            try discriminate; inversion H; subst; discriminate).
  rewrite (savedPostRecord_of_array _ _ _ Hs) in H.
  destruct (find_refersTo_sound _ _ H) as [-> | [Hin [_ Hm]]];
    [discriminate | tauto].
Qed.

End Resolution.

(** X6.  Toggle-save never deletes a foreign record: whenever a click
    issues a remote delete, the identifier it carries is present and is
    the identifier of a record of the viewer's own [save] collection
    that refers to the item shown. *)
Theorem click_save_deletes_own_record (props : Props) (currentUser : value)
        (st st' : State) (es : list Effect) (i : value) :
  clickSave props currentUser st = Normal (st', es) ->
  In (DeleteSavedPost i) es ->
  truthy i = true
  /\ exists record,
       In record (savedRecords currentUser)
       /\ optGet record "$id" = i
       /\ matches (post props) record = true.
Proof.
  intros Hclick Hin. unfold clickSave in Hclick.
  destruct (PostStats props currentUser (Some st)) as [r | e] eqn:Hr;
    simpl in Hclick; [| discriminate].
  assert (Hrec : savedPostRecord currentUser (post props)
                 = Normal (r_savedPostRecord r)).
  { unfold PostStats in Hr.
    destruct (likesList (post props)); simpl in Hr; [| discriminate].
    destruct (savedPostRecord currentUser (post props)); simpl in Hr;
      [| discriminate].
    inversion Hr. reflexivity. }
  rewrite run_handleSavePost in Hclick.
  destruct (truthy (r_savedPostRecord r)) eqn:Et.
  - destruct (savedPostRecord_sound _ _ _ Hrec Et) as [Hmem Hm].
    destruct (truthy (optGet (r_savedPostRecord r) "$id")) eqn:Ei;
      inversion Hclick; subst es; simpl in Hin;
      destruct Hin as [H | [H | []]]; try discriminate.
    inversion H; subst i. split; [assumption |].
    exists (r_savedPostRecord r). tauto.
  - destruct (truthy (optGet (post props) "$id") && truthy (Str (userId props)));
      inversion Hclick; subst es; simpl in Hin;
      destruct Hin as [H | [H | []]]; discriminate.
Qed.

Lemma click_save_deletes_own_record_witness :
  let props := {| post := Object 1 [("$id", Str "P1"); ("likes", Array 2 [])];
                  userId := "U1" |} in
  let record := Object 12 [("$id", Str "R9");
                           ("post", Object 13 [("$id", Str "P1")])] in
  let currentUser := Object 10 [("$id", Str "U1"); ("save", Array 11 [record])] in
  let st := {| likes := []; isSaved := true |} in
  clickSave props currentUser st =
    Normal ({| likes := []; isSaved := false |},
            [StopPropagation; DeleteSavedPost (Str "R9")])
  /\ truthy (Str "R9") = true
  /\ exists record,
       In record (savedRecords currentUser)
       /\ optGet record "$id" = Str "R9"
       /\ matches (post props) record = true.
Proof.
  intros props record currentUser st. split; [reflexivity |].
  apply (click_save_deletes_own_record props currentUser st
           {| likes := []; isSaved := false |}
           [StopPropagation; DeleteSavedPost (Str "R9")]).
  - reflexivity.
  - simpl. tauto.
Defined.

(** X7.  When several records of the viewer refer to the item (as two
    quick saves leave them), the first one in the collection is the one
    resolved: a click on the save icon deletes that record by its
    identifier and no other, whatever follows it in the collection. *)
Theorem click_save_deletes_first_match (props : Props) (currentUser : value)
        (st : State) (seed : list value) (loc : nat)
        (before behind : list value) (record : value) :
  likesList (post props) = Normal seed ->
  optGet currentUser "save" = Array loc (before ++ record :: behind) ->
  forallb (fun r => negb (nullish r) && negb (matches (post props) r)) before
  = true ->
  nullish record = false ->
  matches (post props) record = true ->
  truthy (optGet record "$id") = true ->
  clickSave props currentUser st =
  Normal ({| likes := likes st; isSaved := false |},
          [StopPropagation; DeleteSavedPost (optGet record "$id")]).
Proof.
  intros Hseed Hsave Hbefore Hn Hm Hid.
  assert (Hrec : savedPostRecord currentUser (post props) = Normal record).
  { rewrite (savedPostRecord_of_array _ _ _ _ Hsave).
    now apply find_refersTo_first. }
  assert (Ht : truthy record = true).
  { destruct record; simpl in *; try discriminate; reflexivity. }
  unfold clickSave, PostStats. rewrite Hseed. simpl. rewrite Hrec. simpl.
  rewrite run_handleSavePost, Ht, Hid. reflexivity.
Qed.

Lemma click_save_deletes_first_match_witness :
  let props := {| post := Object 1 [("$id", Str "P1"); ("likes", Array 2 [])];
                  userId := "U1" |} in
  let other := Object 12 [("$id", Str "R1");
                          ("post", Object 13 [("$id", Str "P7")])] in
  let first := Object 14 [("$id", Str "R8");
                          ("post", Object 15 [("$id", Str "P1")])] in
  let second := Object 16 [("$id", Str "R9");
                           ("post", Object 17 [("$id", Str "P1")])] in
  let currentUser :=
    Object 10 [("$id", Str "U1"); ("save", Array 11 [other; first; second])] in
  let st := {| likes := []; isSaved := true |} in
  clickSave props currentUser st =
  Normal ({| likes := []; isSaved := false |},
          [StopPropagation; DeleteSavedPost (Str "R8")]).
Proof.
  intros props other first second currentUser st.
  apply (click_save_deletes_first_match props currentUser st [] 11
           [other] [second] first); reflexivity.
Defined.

(** X8.  No remote call goes out with a missing identifier: every
    like-update carries a present item identifier, every create a
    present item identifier and a non-empty viewer identifier, every
    delete a present record identifier, and each handler issues at most
    one remote call per invocation. *)
Theorem remote_calls_well_addressed (props : Props) (savedPostRecord : value)
        (st : State) :
  (exists st' es,
     run (handleLikePost props (likes st)) st = Normal (st', es)
     /\ forallb wellAddressed es = true
     /\ List.length (remoteCalls es) <= 1)
  /\ (exists st' es,
        run (handleSavePost props savedPostRecord) st = Normal (st', es)
        /\ forallb wellAddressed es = true
        /\ List.length (remoteCalls es) <= 1).
Proof.
  split.
  - do 2 eexists. split; [apply run_handleLikePost |].
    destruct (truthy (optGet (post props) "$id")) eqn:E; simpl;
      [rewrite E |]; split; simpl; auto.
  - rewrite run_handleSavePost.
    destruct (truthy savedPostRecord).
    + destruct (truthy (optGet savedPostRecord "$id")) eqn:E;
        do 2 eexists; (split; [reflexivity |]); simpl;
        [rewrite E |]; split; simpl; auto.
    + destruct (truthy (optGet (post props) "$id") && truthy (Str (userId props)))
        eqn:E; do 2 eexists; (split; [reflexivity |]); simpl; simpl in E;
        [rewrite E |]; split; simpl; auto.
Qed.

Section FindCompletion.

Variable post : value.

(** [find] completes exactly when every null or undefined record is
    hidden behind a record that refers to the item. *)
Lemma find_refersTo_completes (records : list value) :
  (exists found, JS.find (refersTo post) records = Normal found)
  <-> forall before record behind,
        records = before ++ record :: behind ->
        nullish record = true ->
        exists r, In r before /\ nullish r = false /\ matches post r = true.
Proof.
  induction records as [| x xs IH].
  - split.
    + intros _ before record behind H. destruct before; discriminate.
    + intros _. now exists Undefined.
  - simpl. destruct (nullish x) eqn:Hx.
    + destruct (get_nullish_throws x "post" Hx) as [e He].
      unfold refersTo at 1. rewrite He. simpl. split.
      * intros [found H]. discriminate.
      * intros H. destruct (H [] x xs eq_refl Hx) as [r [[] _]].
    + rewrite (refersTo_non_nullish post x Hx). simpl.
      destruct (matches post x) eqn:Hm.
      * split; [| intros _; now exists x].
        intros _ before record behind Heq Hn.
        destruct before as [| b before]; simpl in Heq; inversion Heq; subst.
        -- congruence.
        -- exists b. split; [now left | tauto].
      * rewrite IH. split.
        -- intros H before record behind Heq Hn.
           destruct before as [| b before]; simpl in Heq; inversion Heq; subst.
           ++ congruence.
           ++ destruct (H before record behind eq_refl Hn) as [r [Hin Hr]].
              exists r. split; [now right | assumption].
        -- intros H before record behind Heq Hn.
           destruct (H (x :: before) record behind) as [r [[Hin | Hin] [Hrn Hrm]]];
             [now rewrite Heq | assumption | subst r; congruence |].
           exists r. tauto.
Qed.

(** [currentUser?.save?.find(...)] by the value of [currentUser?.save]. *)
Lemma savedPostRecord_by_save (currentUser : value) :
  savedPostRecord currentUser post =
  match optGet currentUser "save" with
  | Undefined | Null => Normal Undefined
  | Array _ records => JS.find (refersTo post) records
  | _ => Throw (TypeError "currentUser.save.find is not a function")
  end.
Proof.
  unfold savedPostRecord.
  destruct currentUser as [| | b | n | s | loc xs | loc ps]; simpl;
    try reflexivity.
  destruct (ownProperty "save" ps); reflexivity.
Qed.

End FindCompletion.

(** X9.  Resolving the saved record completes exactly in these cases:
    there is no viewer or no [save] collection (nothing is resolved), or
    [save] is an array in which every null or undefined entry comes
    after a record that refers to the item.  Any other [save] value, and
    a null entry met before a match, throws out of the render. *)
Theorem savedPostRecord_completes_iff (currentUser post : value) :
  (exists found, savedPostRecord currentUser post = Normal found)
  <-> match optGet currentUser "save" with
      | Undefined | Null => True
      | Array _ records =>
          forall before record behind,
            records = before ++ record :: behind ->
            nullish record = true ->
            exists r, In r before /\ nullish r = false /\ matches post r = true
      | _ => False
      end.
Proof.
  rewrite savedPostRecord_by_save.
  destruct (optGet currentUser "save") as [| | b | n | s | loc rs | loc ps].
  6: apply find_refersTo_completes.
  1, 2: split; [tauto | intros _; now exists Undefined].
  all: split; [intros [found H]; discriminate | tauto].
Qed.

(** X10.  The component never invents a like: in every state the
    mounted component reaches, each entry of the local like sequence
    comes from the seed read off the post at mount, or is the viewer's
    own identifier. *)
Theorem reachable_likes_from_seed (props : Props) (currentUser : value)
        (st : State) (seed : list value) :
  likesList (post props) = Normal seed ->
  reachable props currentUser st ->
  forall x, In x (likes st) -> In x seed \/ x = Str (userId props).
Proof.
  intros Hseed Hreach.
  induction Hreach as [cu st Hm | cu st st' es _ IH Hclick
                       | cu st st' es _ IH Hclick | cu cu' st st' _ IH Hd].
  - apply mount_likes in Hm. rewrite Hseed in Hm.
    assert (Hlikes : seed = likes st) by congruence.
    intros x Hx. left. now rewrite Hlikes.
  - apply clickLike_runs_handler in Hclick.
    rewrite run_handleLikePost in Hclick. inversion Hclick. simpl.
    intros x. unfold newLikesOf.
    destruct (includes (likes st) (Str (userId props))).
    + rewrite In_filter_others. intros [Hx _]. now apply IH.
    + unfold push. rewrite in_app_iff. simpl.
      intros [Hx | [Hx | []]]; [now apply IH | now right].
  - rewrite (clickSave_keeps_likes _ _ _ _ _ Hclick). exact IH.
  - rewrite (derive_keeps_likes _ _ _ _ Hd). exact IH.
Qed.

Lemma reachable_likes_from_seed_witness :
  let props := {| post := Object 1 [("$id", Str "P1");
                                    ("likes", Array 2 [Object 3 [("$id", Str "U2")]])];
                  userId := "U1" |} in
  let st := {| likes := [Str "U2"; Str "U1"]; isSaved := false |} in
  likesList (post props) = Normal [Str "U2"]
  /\ reachable props Undefined st
  /\ forall x, In x (likes st) -> In x [Str "U2"] \/ x = Str (userId props).
Proof.
  intros props st.
  assert (Hreach : reachable props Undefined st).
  { apply (reach_like props Undefined {| likes := [Str "U2"]; isSaved := false |}
             st [StopPropagation; LikePost (Str "P1") [Str "U2"; Str "U1"]]).
    - apply reach_mount. reflexivity.
    - reflexivity. }
  split; [reflexivity | split; [exact Hreach |]].
  apply (reachable_likes_from_seed props Undefined st [Str "U2"]);
    [reflexivity | exact Hreach].
Defined.

(** * The relative time shown on the page *)

Section TimeAgo.

Open Scope Z_scope.

Lemma count_reaches_one (s secondsInUnit : Z) :
  0 < secondsInUnit ->
  (1 <=? s / secondsInUnit) = (secondsInUnit <=? s).
Proof.
  intros Hpos. destruct (Z.leb_spec secondsInUnit s) as [H | H].
  - apply Z.leb_le. apply Z.div_le_lower_bound; lia.
  - apply Z.leb_gt. apply Z.div_lt_upper_bound; lia.
Qed.

(** The loop, unit by unit, in terms of the elapsed seconds. *)
Lemma firstInterval_by_range (s : Z) :
  firstInterval (Some s) intervals =
  if 31536000 <=? s then Some (s / 31536000, "year")
  else if 2592000 <=? s then Some (s / 2592000, "month")
  else if 604800 <=? s then Some (s / 604800, "week")
  else if 86400 <=? s then Some (s / 86400, "day")
  else if 3600 <=? s then Some (s / 3600, "hour")
  else if 60 <=? s then Some (s / 60, "minute")
  else None.
Proof.
  unfold intervals, firstInterval.
  rewrite !count_reaches_one by lia. reflexivity.
Qed.

Lemma firstInterval_NaN (entries : list (string * Z)) :
  firstInterval None entries = None.
Proof.
  induction entries as [| [unit secondsInUnit] rest IH]; simpl; auto.
Qed.

End TimeAgo.

(** X11.  [timeAgo] by the whole seconds [s] elapsed between the date
    and the clock: below one minute (a date in the future included) and
    for an invalid date it says "just now"; from there on it counts
    whole minutes up to the hour, whole hours up to the day, whole days
    up to the week, whole weeks up to 30 days, 30-day months up to 365
    days, and 365-day years. *)
Theorem timeAgo_by_range (now past : Z) :
  let s := ((now - past) / 1000)%Z in
  timeAgo now None = "just now"
  /\ ((s < 60)%Z -> timeAgo now (Some past) = "just now")
  /\ ((60 <= s < 3600)%Z ->
      timeAgo now (Some past) = agoText (s / 60) "minute")
  /\ ((3600 <= s < 86400)%Z ->
      timeAgo now (Some past) = agoText (s / 3600) "hour")
  /\ ((86400 <= s < 604800)%Z ->
      timeAgo now (Some past) = agoText (s / 86400) "day")
  /\ ((604800 <= s < 2592000)%Z ->
      timeAgo now (Some past) = agoText (s / 604800) "week")
  /\ ((2592000 <= s < 31536000)%Z ->
      timeAgo now (Some past) = agoText (s / 2592000) "month")
  /\ ((31536000 <= s)%Z ->
      timeAgo now (Some past) = agoText (s / 31536000) "year").
Proof.
  intros s. unfold timeAgo. simpl option_map. fold s.
  rewrite firstInterval_NaN, firstInterval_by_range.
  split; [reflexivity |].
  repeat split; intros H;
    repeat match goal with
           | |- context [(?a <=? s)%Z] =>
               destruct (Z.leb_spec a s); try lia
           end; reflexivity.
Qed.

Lemma timeAgo_by_range_witness :
  timeAgo 1700000000000%Z (Some 1699999880000%Z) = "2 minutes ago"
  /\ timeAgo 1700000000000%Z (Some 1699996400000%Z) = "1 hour ago"
  /\ timeAgo 1700000000000%Z (Some 1700000500000%Z) = "just now".
Proof.
  destruct (timeAgo_by_range 1700000000000%Z 1699999880000%Z)
    as [_ [_ [Hmin _]]].
  destruct (timeAgo_by_range 1700000000000%Z 1699996400000%Z)
    as [_ [_ [_ [Hhour _]]]].
  destruct (timeAgo_by_range 1700000000000%Z 1700000500000%Z)
    as [_ [Hnow _]].
  split; [| split].
  - rewrite Hmin; [reflexivity | vm_compute; split; congruence].
  - rewrite Hhour; [reflexivity | vm_compute; split; congruence].
  - rewrite Hnow; [reflexivity | vm_compute; reflexivity].
Defined.

(** X12.  The count [timeAgo] shows is at least 1 and stays below the
    next unit, except where the units do not nest: minutes go up to 59,
    hours to 23, days to 6, but weeks go up to 4 and months up to 12
    (days 360 to 364 read "12 months ago"); nothing is shown as a
    count when less than a minute has elapsed. *)
Theorem timeAgo_count_bounds (s : Z) :
  match firstInterval (Some s) intervals with
  | None => (s < 60)%Z
  | Some (count, unit) =>
      (60 <= s)%Z /\ (1 <= count)%Z
      /\ (exists secondsInUnit,
            In (unit, secondsInUnit) intervals
            /\ (secondsInUnit * count <= s < secondsInUnit * (count + 1))%Z)
      /\ (unit = "year"
          \/ (unit = "month" /\ (count <= 12)%Z)
          \/ (unit = "week" /\ (count <= 4)%Z)
          \/ (unit = "day" /\ (count <= 6)%Z)
          \/ (unit = "hour" /\ (count <= 23)%Z)
          \/ (unit = "minute" /\ (count <= 59)%Z))
  end.
Proof.
  rewrite firstInterval_by_range.
  assert (Hdiv : forall u, (0 < u)%Z ->
            (u * (s / u) <= s < u * (s / u + 1))%Z).
  { intros u Hu. pose proof (Z.mul_div_le s u Hu).
    pose proof (Z.mul_succ_div_gt s u Hu). lia. }
  repeat match goal with
         | |- context [(?a <=? s)%Z] => destruct (Z.leb_spec a s)
         end.
  7: assumption.
  all: split; [lia |].
  all: split; [apply Z.div_le_lower_bound; lia |].
  all: split;
    [eexists; split; [unfold intervals; simpl; eauto 10 | apply Hdiv; lia] |].
  - now left.
  - right; left. split; [reflexivity |].
    assert ((s / 2592000 < 13)%Z) by (apply Z.div_lt_upper_bound; lia). lia.
  - right; right; left. split; [reflexivity |].
    assert ((s / 604800 < 5)%Z) by (apply Z.div_lt_upper_bound; lia). lia.
  - right; right; right; left. split; [reflexivity |].
    assert ((s / 86400 < 7)%Z) by (apply Z.div_lt_upper_bound; lia). lia.
  - right; right; right; right; left. split; [reflexivity |].
    assert ((s / 3600 < 24)%Z) by (apply Z.div_lt_upper_bound; lia). lia.
  - right; right; right; right; right. split; [reflexivity |].
    assert ((s / 60 < 60)%Z) by (apply Z.div_lt_upper_bound; lia). lia.
Qed.

(** * The details page *)

Section PageLemmas.

Variables (now : Z) (parseDate : value -> option Z) (viewerId : string).

Lemma strictEq_Str_l (v : string) (x : value) :
  strictEq (Str v) x = true <-> x = Str v.
Proof.
  destruct x; simpl; split; try discriminate; intros H.
  - apply String.eqb_eq in H. now subst.
  - inversion H; subst. apply String.eqb_refl.
Qed.

Lemma creatorField_by_creator (post : value) (k : string) :
  creatorField post k =
  if nullish post then Normal Undefined
  else get (optGet post "creator") k.
Proof.
  unfold creatorField. destruct (nullish post) eqn:Hp; [reflexivity |].
  rewrite (get_non_nullish _ _ Hp). reflexivity.
Qed.

Lemma tagItems_by_tags (post : value) :
  tagItems post =
  if nullish post then Normal None
  else match optGet post "tags" with
       | Undefined => Throw (TypeError "Cannot read properties of undefined")
       | Null => Throw (TypeError "Cannot read properties of null")
       | Array _ items => Normal (Some items)
       | _ => Throw (TypeError "post.tags.map is not a function")
       end.
Proof.
  unfold tagItems. destruct (nullish post) eqn:Hp; [reflexivity |].
  rewrite (get_non_nullish _ _ Hp). reflexivity.
Qed.

(** The class interpolated for an owner control. *)
Lemma hiddenUnlessOwner_shown (post hidden : value) :
  hiddenUnlessOwner viewerId post = Normal hidden ->
  toString hidden =
  if strictEq (Str viewerId) (optGet (optGet post "creator") "$id")
  then "false" else "hidden".
Proof.
  unfold hiddenUnlessOwner. rewrite creatorField_by_creator.
  destruct (nullish post) eqn:Hp.
  - intros H. inversion H.
    destruct post; simpl in Hp; try discriminate; reflexivity.
  - destruct (nullish (optGet post "creator")) eqn:Hc.
    + destruct (get_nullish_throws _ "$id" Hc) as [e He]. rewrite He.
      discriminate.
    + rewrite (get_non_nullish _ _ Hc). cbn [bind].
      destruct (strictEq (Str viewerId)
                         (optGet (optGet post "creator") "$id"));
        intros H; inversion H; reflexivity.
Qed.

(** The page's own render of a settled query completes exactly when the
    post is missing altogether, or has a creator and an array of tags. *)
Lemma PostDetails_completes_iff (post : value) :
  (exists view, PostDetails now parseDate viewerId post false = Normal view)
  <-> nullish post = true
      \/ (nullish (optGet post "creator") = false
          /\ isArray (optGet post "tags") = true).
Proof.
  unfold PostDetails, hiddenUnlessOwner.
  rewrite !creatorField_by_creator, tagItems_by_tags.
  destruct (nullish post) eqn:Hp; simpl.
  - split; [now left | intros _; eexists; reflexivity].
  - destruct (nullish (optGet post "creator")) eqn:Hc.
    + destruct (get_nullish_throws _ "$id" Hc) as [e He]. rewrite He. simpl.
      split; [intros [view H]; discriminate |].
      intros [H | [H _]]; discriminate.
    + rewrite !(get_non_nullish _ _ Hc). simpl.
      destruct (optGet post "tags") as [| | b | n | s | loc items | loc ps];
        simpl;
        try (split; [intros [view H]; discriminate
                    | intros [H | [_ H]]; discriminate]).
      split; [now right | intros _; eexists; reflexivity].
Qed.

End PageLemmas.


(** X14.  When the post query settles without data, the page's own
    render completes: it builds links to [/profile/undefined] and
    [/update-post/undefined], hides both owner controls and lists no
    tags.  The page as a whole still throws, because the like/save
    component it embeds is handed the missing post. *)
Theorem page_throws_without_data (now : Z) (parseDate : value -> option Z)
        (viewerId : string) (post currentUser : value) :
  nullish post = true ->
  PostDetails now parseDate viewerId post false =
    Normal (DetailsCard
      {| card_image := Undefined;
         card_profileLink := "/profile/undefined";
         card_creatorImage := Str "/assets/icons/profile-placeholder.svg";
         card_creatorName := Undefined;
         card_createdAgo := timeAgo now (parseDate Undefined);
         card_location := Undefined;
         card_updateLink := "/update-post/undefined";
         card_editClass := "hidden";
         card_deleteClass := "ghost_details-delete_btn hidden";
         card_caption := Undefined;
         card_tags := None;
         card_stats := {| post := post; userId := viewerId |} |})
  /\ exists e,
       PostDetailsPage now parseDate viewerId post false currentUser = Throw e.
Proof.
  intros Hp.
  assert (Hview : PostDetails now parseDate viewerId post false =
    Normal (DetailsCard
      {| card_image := Undefined;
         card_profileLink := "/profile/undefined";
         card_creatorImage := Str "/assets/icons/profile-placeholder.svg";
         card_creatorName := Undefined;
         card_createdAgo := timeAgo now (parseDate Undefined);
         card_location := Undefined;
         card_updateLink := "/update-post/undefined";
         card_editClass := "hidden";
         card_deleteClass := "ghost_details-delete_btn hidden";
         card_caption := Undefined;
         card_tags := None;
         card_stats := {| post := post; userId := viewerId |} |})).
  { destruct post; simpl in Hp; try discriminate; reflexivity. }
  split; [exact Hview |].
  unfold PostDetailsPage. rewrite Hview. simpl.
  destruct post; simpl in Hp; try discriminate; eexists; reflexivity.
Qed.

Lemma page_throws_without_data_witness :
  nullish Undefined = true
  /\ exists e,
       PostDetailsPage 0%Z (fun _ => None) "U1" Undefined false Undefined
       = Throw e.
Proof.
  split; [reflexivity |].
  destruct (page_throws_without_data 0%Z (fun _ => None) "U1"
              Undefined Undefined eq_refl) as [_ H].
  exact H.
Defined.

(** X15.  On every rendered card the edit link and the delete button
    are shown to the post's creator and hidden from everybody else: both
    carry the class [hidden] unless the creator's identifier is the
    viewer's, in which case the interpolated class is the harmless
    [false]. *)
Theorem owner_controls (now : Z) (parseDate : value -> option Z)
        (viewerId : string) (post : value) (card : Card) :
  PostDetails now parseDate viewerId post false = Normal (DetailsCard card) ->
  card_deleteClass card
  = ("ghost_details-delete_btn " ++ card_editClass card)%string
  /\ (optGet (optGet post "creator") "$id" = Str viewerId ->
      card_editClass card = "false")
  /\ (optGet (optGet post "creator") "$id" <> Str viewerId ->
      card_editClass card = "hidden").
Proof.
  unfold PostDetails.
  destruct (creatorField post "$id") as [profileId | e]; cbn [bind];
    [| discriminate].
  destruct (creatorField post "name") as [creatorName | e]; cbn [bind];
    [| discriminate].
  destruct (hiddenUnlessOwner viewerId post) as [hidden | e] eqn:Hh;
    cbn [bind]; [| discriminate].
  destruct (tagItems post) as [tags | e]; cbn [bind]; [| discriminate].
  intros H. inversion H; subst card. cbn [card_editClass card_deleteClass].
  split; [reflexivity |].
  rewrite (hiddenUnlessOwner_shown _ _ _ Hh).
  pose proof (strictEq_Str_l viewerId
                (optGet (optGet post "creator") "$id")) as Hown.
  destruct (strictEq (Str viewerId) (optGet (optGet post "creator") "$id")).
  - split; [reflexivity |].
    intros Hne. exfalso. apply Hne. now apply Hown.
  - split; [| reflexivity].
    intros Heq. apply Hown in Heq. discriminate.
Qed.

Lemma owner_controls_witness :
  let post := Object 1 [("$id", Str "P1");
                        ("creator", Object 5 [("$id", Str "U1")]);
                        ("tags", Array 6 [Str "rocq"])] in
  exists card,
    PostDetails 0%Z (fun _ => None) "U1" post false = Normal (DetailsCard card)
    /\ card_editClass card = "false"
    /\ card_deleteClass card = "ghost_details-delete_btn false".
Proof.
  intros post. eexists. split; [reflexivity |].
  destruct (owner_controls 0%Z (fun _ => None) "U1" post _ eq_refl)
    as [Hdel [Hown _]].
  split; [apply Hown; reflexivity |].
  rewrite Hdel, (Hown eq_refl). reflexivity.
Defined.

(** * Refetched snapshots and the rendered page *)

Section Refetch.

Variable props : Props.

Lemma PostStats_parts (currentUser : value) (cells : option State)
      (r : Rendered) :
  PostStats props currentUser cells = Normal r ->
  (exists seed, likesList (post props) = Normal seed)
  /\ savedPostRecord currentUser (post props) = Normal (r_savedPostRecord r).
Proof.
  unfold PostStats.
  destruct (likesList (post props)) as [seed | e]; simpl; [| discriminate].
  destruct (savedPostRecord currentUser (post props)); simpl; [| discriminate].
  intros H. inversion H. simpl. split; [now exists seed | reflexivity].
Qed.

(** Only the [save] collection of a viewer snapshot matters to what is
    resolved. *)
Lemma savedPostRecord_same_save (currentUser refetched : value) :
  optGet refetched "save" = optGet currentUser "save" ->
  savedPostRecord refetched (post props)
  = savedPostRecord currentUser (post props).
Proof.
  intros H. rewrite !savedPostRecord_by_save, H. reflexivity.
Qed.

End Refetch.

(** X4.  A refetch takes back an optimistic toggle-save that did not
    land.  Take a state whose flag agrees with the viewer snapshot, click
    the save icon (the flag flips whenever a call goes out), and let the
    query deliver a new snapshot object whose [save] collection is
    still the old one: the effect runs, because [currentUser] changed,
    and the state is exactly the one before the click. *)
Theorem refetch_takes_back_optimistic_save (props : Props)
        (currentUser refetched : value) (s : State) (r : Rendered) :
  PostStats props currentUser (Some s) = Normal r ->
  isSaved s = truthy (r_savedPostRecord r) ->
  strictEq currentUser refetched = false ->
  optGet refetched "save" = optGet currentUser "save" ->
  exists s' es,
    clickSave props currentUser s = Normal (s', es)
    /\ (remoteCalls es <> [] -> isSaved s' = negb (isSaved s))
    /\ derive props refetched s' = Normal s.
Proof.
  intros Hr Hflag _ Hsave.
  destruct (PostStats_parts _ _ _ _ Hr) as [[seed Hseed] Hrec].
  rewrite <- (savedPostRecord_same_save props _ _ Hsave) in Hrec.
  rewrite (clickSave_result _ _ s _ Hr), run_handleSavePost.
  assert (Hderive : forall s',
            likes s' = likes s -> derive props refetched s' = Normal s).
  { intros s' Hlikes. unfold derive, PostStats.
    rewrite Hseed. simpl. rewrite Hrec. simpl.
    unfold deriveIsSaved. rewrite Hlikes, <- Hflag. now destruct s. }
  destruct (truthy (r_savedPostRecord r)) eqn:Et.
  - do 2 eexists. split; [reflexivity |]. split.
    + intros _. simpl. now rewrite Hflag.
    + now apply Hderive.
  - destruct (truthy (optGet (post props) "$id") && truthy (Str (userId props))).
    + do 2 eexists. split; [reflexivity |]. split.
      * intros _. simpl. now rewrite Hflag.
      * now apply Hderive.
    + do 2 eexists. split; [reflexivity |]. split.
      * intros H. exfalso. apply H. reflexivity.
      * now apply Hderive.
Qed.

Lemma refetch_takes_back_optimistic_save_witness :
  let props := {| post := Object 1 [("$id", Str "P1"); ("likes", Array 2 [])];
                  userId := "U1" |} in
  let currentUser := Object 10 [("$id", Str "U1"); ("save", Array 11 [])] in
  let refetched :=
    Object 20 [("$id", Str "U1"); ("bio", Str "hello"); ("save", Array 11 [])] in
  let s := {| likes := []; isSaved := false |} in
  strictEq currentUser refetched = false
  /\ optGet refetched "save" = optGet currentUser "save"
  /\ clickSave props currentUser s =
     Normal ({| likes := []; isSaved := true |},
             [StopPropagation; SavePost (Str "P1") "U1"])
  /\ exists s' es,
       clickSave props currentUser s = Normal (s', es)
       /\ (remoteCalls es <> [] -> isSaved s' = negb (isSaved s))
       /\ derive props refetched s' = Normal s.
Proof.
  intros props currentUser refetched s.
  split; [reflexivity | split; [reflexivity | split; [reflexivity |]]].
  apply (refetch_takes_back_optimistic_save props currentUser refetched s
           {| r_state := s; r_savedPostRecord := Undefined;
              r_view := Stats false 0 false |});
    reflexivity.
Defined.

Section PageRender.

Variables (now : Z) (parseDate : value -> option Z) (viewerId : string).

Lemma find_invalid_none (children : list value) :
  List.find (fun child => negb (validChild child)) children = None
  <-> forallb validChild children = true.
Proof.
  induction children as [| c cs IH]; simpl; [tauto |].
  destruct (validChild c); simpl; [exact IH |].
  split; discriminate.
Qed.

Lemma tag_children_valid (items : list value) :
  forallb validChild (flat_map (fun tag => [Str "#"; tag]) items)
  = forallb validChild items.
Proof.
  induction items as [| t ts IH]; simpl; [reflexivity |].
  now rewrite IH.
Qed.

(** The card of a post that has a creator and an array of tags. *)
Lemma PostDetails_card (post : value) (loc : nat) (items : list value) :
  nullish post = false ->
  nullish (optGet post "creator") = false ->
  optGet post "tags" = Array loc items ->
  exists card,
    PostDetails now parseDate viewerId post false = Normal (DetailsCard card)
    /\ card_creatorName card = optGet (optGet post "creator") "name"
    /\ card_location card = optGet post "location"
    /\ card_caption card = optGet post "caption"
    /\ card_tags card = Some items
    /\ card_stats card = {| post := post; userId := viewerId |}.
Proof.
  intros Hp Hc Ht. unfold PostDetails, hiddenUnlessOwner.
  rewrite !creatorField_by_creator, tagItems_by_tags, Hp, Ht.
  rewrite !(get_non_nullish _ _ Hc). cbn [bind].
  eexists. split; [reflexivity |]. repeat split.
Qed.

(** The card of a missing post. *)
Lemma PostDetails_card_missing (post : value) :
  nullish post = true ->
  exists card,
    PostDetails now parseDate viewerId post false = Normal (DetailsCard card)
    /\ cardChildren card
       = [Undefined; Str (timeAgo now (parseDate Undefined));
          Undefined; Undefined]
    /\ card_stats card = {| post := post; userId := viewerId |}.
Proof.
  intros Hp. destruct post; simpl in Hp; try discriminate;
    eexists; (split; [reflexivity |]); split; reflexivity.
Qed.

End PageRender.

